(** * FastRoute backend: the authentication core

    A shallow embedding of [middleware/auth.js] (the access gate), of
    [routes/auth.js] (login, registration and token verification) and of the
    gate's mounting in [server.js], together with the properties of the
    authentication path.

    The npm packages the code calls ([jsonwebtoken], [bcryptjs],
    [express-validator]) are not part of the repository: their entry points
    are variables of the main section, and a property that needs one of
    their documented guarantees states it as a hypothesis. What they do
    around those entry points is written out: express-validator reading a
    field of any type as text, validator.js counting characters and
    trimming whitespace, bcryptjs rejecting an argument that is not a
    string. The password verifier has, besides, a model after the spec's
    component design.

    Strings are held as their UTF-8 bytes. *)

From Stdlib Require Import String Ascii List ZArith Bool Lia.
From Stdlib Require Import DecimalString DecimalNat.
Import ListNotations.
Open Scope string_scope.

(** ** JSON values and HTTP responses *)

#[local] Set Warnings "-register-all".

Inductive json : Type :=
| JNull
| JBool (b : bool)
| JNum (n : Z)
| JStr (s : string)
| JArr (items : list json)
| JObj (fields : list (string * json)).

(** [res.status(s).json(b)]. *)
Record Response : Type := mkResponse { status : nat; body : json }.

(** [res.json(b)]: Express answers 200 unless a status was set. *)
Definition res_json (b : json) : Response := mkResponse 200 b.

Definition keys (j : json) : list string :=
  match j with
  | JObj fields => map fst fields
  | _ => []
  end.

Fixpoint assoc {A : Type} (k : string) (l : list (string * A)) : option A :=
  match l with
  | [] => None
  | (k', v) :: rest => if String.eqb k k' then Some v else assoc k rest
  end.

Definition field (k : string) (j : json) : option json :=
  match j with
  | JObj fields => assoc k fields
  | _ => None
  end.

(** ** JavaScript strings *)

(** [s.split(sep)] for a one-character separator: the pieces between the
    separators, the empty string giving one empty piece. *)
Fixpoint split (sep : ascii) (s : string) : list string :=
  match s with
  | EmptyString => [EmptyString]
  | String c rest =>
      if Ascii.eqb c sep then EmptyString :: split sep rest
      else match split sep rest with
           | [] => [String c EmptyString]
           | piece :: pieces => String c piece :: pieces
           end
  end.

Fixpoint contains (c : ascii) (s : string) : bool :=
  match s with
  | EmptyString => false
  | String c' rest => Ascii.eqb c' c || contains c rest
  end.

(** A JavaScript value that is [undefined] or a string is an
    [option string]; it is truthy when it is a non-empty string. *)
Definition truthy (v : option string) : bool :=
  match v with
  | None => false
  | Some s => negb (String.eqb s "")
  end.

(** [a && b] on such values: [a] itself when [a] is falsy. *)
Definition js_and (a : option string) (b : string -> option string) : option string :=
  match a with
  | None => None
  | Some s => if truthy a then b s else a
  end.

(** The string a value holds ([undefined] is only read after a truthiness
    test, or through the validators' [toString], which gives [""]). *)
Definition text (v : option string) : string :=
  match v with
  | None => ""
  | Some s => s
  end.

Definition space : ascii := " "%char.

(** ** The fields of a JSON body *)

(** A field of [req.body] as [express.json()] hands it over: a string, a
    number, [true], [false] or [null]. Numbers are the integers a double
    holds exactly; arrays and objects as field values are left out. *)
Inductive scalar : Type :=
| SStr (s : string)
| SNum (n : Z)
| SBool (b : bool)
| SNull.

(** [String(n)] for such an integer: its decimal digits, after a minus
    sign when it is negative. *)
Definition decimal (n : Z) : string := NilZero.string_of_int (Z.to_int n).

(** The string the validators and sanitizers of express-validator work
    on: [""] for an absent field and for [null], and [String(v)] for every
    other value. *)
Definition field_text (v : option scalar) : string :=
  match v with
  | None => ""
  | Some (SStr s) => s
  | Some (SNum n) => decimal n
  | Some (SBool true) => "true"
  | Some (SBool false) => "false"
  | Some SNull => ""
  end.

(** What node-postgres sends for a parameter: NULL for [undefined] and
    [null], and the text of every other value. *)
Definition sql_text (v : option scalar) : option string :=
  match v with
  | None => None
  | Some SNull => None
  | Some _ => Some (field_text v)
  end.

(** [typeof v] *)
Definition typeof (v : option scalar) : string :=
  match v with
  | None => "undefined"
  | Some (SStr _) => "string"
  | Some (SNum _) => "number"
  | Some (SBool _) => "boolean"
  | Some SNull => "object"
  end.

(** [!!v]: [undefined], [null], [false], [0] and [""] are falsy. *)
Definition js_truthy (v : option scalar) : bool :=
  match v with
  | None => false
  | Some (SStr s) => negb (String.eqb s "")
  | Some (SNum n) => negb (Z.eqb n 0)
  | Some (SBool b) => b
  | Some SNull => false
  end.

Definition to_json (v : scalar) : json :=
  match v with
  | SStr s => JStr s
  | SNum n => JNum n
  | SBool b => JBool b
  | SNull => JNull
  end.

(** ** Session tokens *)

Module Token.
(** What [generateToken] signs. *)
Record claims : Type := mkClaims { userId : Z; email : string; nome : string }.

(** What [jwt.verify] decodes: the claims with the issued-at and expiry
    stamps [jwt.sign] adds under [expiresIn]. *)
Record payload : Type := mkPayload { body : claims; iat : Z; exp : Z }.
End Token.

(** The two failures of [jwt.verify] the spec names. *)
Inductive JwtError : Type :=
| TokenExpiredError
| JsonWebTokenError (message : string).

(** ** Requests *)

Record Request : Type := mkRequest {
  path : string;
  headers : list (string * string);
  fields : list (string * scalar);      (* req.body, a flat JSON object *)
  user : option Token.payload           (* req.user *)
}.

Definition set_user (req : Request) (u : Token.payload) : Request :=
  mkRequest (path req) (headers req) (fields req) (Some u).

(** What a middleware does with a request: answer it, or call [next()]. *)
Inductive Outcome : Type :=
| Responded (res : Response)
| Next (req : Request).

Definition default_secret : string :=
  "sua_chave_secreta_super_segura_aqui_mude_em_producao".

(** ** Password hashes *)

Module Bcrypt.
(** What the string [bcrypt.hash] returns holds: the cost, the salt and the
    digest. *)
Record hash : Type := mk { cost : nat; salt : string; digest : string }.
End Bcrypt.

Module PasswordVerifier.

(** [n] bytes read from [rest], starting over at [whole] each time the
    end is reached. *)
Fixpoint cycle (n : nat) (whole rest : string) : string :=
  match n with
  | O => EmptyString
  | S m =>
      match rest with
      | String c more => String c (cycle m whole more)
      | EmptyString =>
          match whole with
          | String c more => String c (cycle m whole more)
          | EmptyString => EmptyString
          end
      end
  end.

Definition zero : ascii := Ascii.zero.

(** Modelled from the spec: the password verifier is the package bcryptjs,
    whose code is not among the sources. The one-way function is keyed
    with 72 bytes: those of the password and of a closing zero byte, taken
    over and over until the key is full, so that nothing of a password
    beyond its 72nd byte is read. *)
Definition key (plaintext : string) : string :=
  let bytes := plaintext ++ String zero EmptyString in
  cycle 72 bytes bytes.

(** Modelled from the spec: the hashing of bcryptjs, absent from the
    sources. Following the component design, a hash is computed by an
    expensive one-way function [digest] of the cost, a random salt and the
    password's key, and embeds the salt and the cost next to the digest. *)
Definition hash (digest : nat -> string -> string -> string)
    (plaintext : string) (rounds : nat) (salt : string) : Bcrypt.hash :=
  Bcrypt.mk rounds salt (digest rounds salt (key plaintext)).

(** Modelled from the spec: the comparison of bcryptjs, likewise absent.
    Verification recomputes the digest with the embedded salt and cost and
    is true only on an exact match. *)
Definition verify (digest : nat -> string -> string -> string)
    (plaintext : string) (h : Bcrypt.hash) : bool :=
  String.eqb (digest (Bcrypt.cost h) (Bcrypt.salt h) (key plaintext)) (Bcrypt.digest h).

End PasswordVerifier.

(** ** The credential store *)

Module User.
(** A row of [usuarios]. *)
Record t : Type := mk {
  id : Z;
  nome : string;
  cpf : string;
  email : string;
  telefone : option string;
  senha : Bcrypt.hash;
  ativo : bool;
  ultima_atualizacao : Z
}.

Definition touch (now : Z) (u : t) : t :=
  mk (id u) (nome u) (cpf u) (email u) (telefone u) (senha u) (ativo u) now.

Definition set_ativo (b : bool) (u : t) : t :=
  mk (id u) (nome u) (cpf u) (email u) (telefone u) (senha u) b (ultima_atualizacao u).
End User.

Module PublicUser.
(** A row of the projection [id, nome, email]. *)
Record t : Type := mk { id : Z; nome : string; email : string }.

Definition of_user (u : User.t) : t := mk (User.id u) (User.nome u) (User.email u).

(** The row as node-postgres hands it over: an object of its columns. *)
Definition to_json (r : t) : json :=
  JObj [("id", JNum (id r)); ("nome", JStr (nome r)); ("email", JStr (email r))].
End PublicUser.

(** A JavaScript [Error]; node-postgres adds the SQLSTATE as [code]. *)
Record Error : Type := mkError { code : option string; message : string }.

(** SQLSTATE 23505, [unique_violation]. *)
Definition unique_violation (constraint : string) : Error :=
  mkError (Some "23505")
          ("duplicate key value violates unique constraint " ++ constraint).

(** What happens around a request while it is suspended at an [await]:
    statements other sessions commit, time passing, the database going away
    and coming back. *)
Inductive Event : Type :=
| OtherInsert (nome cpf email : string) (telefone : option string) (senha : Bcrypt.hash)
| SetAtivo (id : Z) (b : bool)
| Tick (dt : Z)
| Outage (e : Error)
| Recover.

Record World : Type := mkWorld {
  usuarios : list User.t;               (* the table *)
  usuarios_id_seq : Z;                  (* the sequence behind usuarios.id *)
  clock : Z;                            (* seconds since the epoch *)
  salt : string;                        (* the salt bcrypt draws next *)
  down : option Error;                  (* the failure every statement meets, if any *)
  schedule : list (list Event)          (* the events of each coming suspension *)
}.

Definition with_usuarios (w : World) (t : list User.t) : World :=
  mkWorld t (usuarios_id_seq w) (clock w) (salt w) (down w) (schedule w).

Definition with_schedule (w : World) (s : list (list Event)) : World :=
  mkWorld (usuarios w) (usuarios_id_seq w) (clock w) (salt w) (down w) s.

Definition with_down (w : World) (d : option Error) : World :=
  mkWorld (usuarios w) (usuarios_id_seq w) (clock w) (salt w) d (schedule w).

(** A statement runs against the world and gives rows or raises. *)
Definition Statement (A : Type) : Type := World -> (Error + A) * World.

(** The rows [WHERE email = $1 AND ativo = true] keeps. *)
Definition active_by_email (email : string) (w : World) : list User.t :=
  filter (fun u => String.eqb (User.email u) email && User.ativo u) (usuarios w).

(** The rows [WHERE id = $1 AND ativo = true] keeps. *)
Definition active_by_id (id : Z) (w : World) : list User.t :=
  filter (fun u => Z.eqb (User.id u) id && User.ativo u) (usuarios w).

(** [SELECT * FROM usuarios WHERE email = $1 AND ativo = true] *)
Definition select_active_by_email (email : string) : Statement (list User.t) :=
  fun w => (inr (active_by_email email w), w).

(** [SELECT id FROM usuarios WHERE email = $1] *)
Definition select_id_by_email (email : string) : Statement (list Z) :=
  fun w =>
    (inr (map User.id (filter (fun u => String.eqb (User.email u) email) (usuarios w))), w).

(** [SELECT id FROM usuarios WHERE cpf = $1] *)
Definition select_id_by_cpf (cpf : string) : Statement (list Z) :=
  fun w =>
    (inr (map User.id (filter (fun u => String.eqb (User.cpf u) cpf) (usuarios w))), w).

(** [SELECT id, nome, email FROM usuarios WHERE id = $1 AND ativo = true] *)
Definition select_public_active_by_id (id : Z) : Statement (list PublicUser.t) :=
  fun w => (inr (map PublicUser.of_user (active_by_id id w)), w).

(** [UPDATE usuarios SET ultima_atualizacao = CURRENT_TIMESTAMP WHERE id = $1] *)
Definition update_ultima_atualizacao (id : Z) : Statement unit :=
  fun w =>
    (inr tt,
     with_usuarios w
       (map (fun u => if Z.eqb (User.id u) id then User.touch (clock w) u else u)
            (usuarios w))).

Definition email_taken (email : string) (w : World) : bool :=
  existsb (fun u => String.eqb (User.email u) email) (usuarios w).

Definition cpf_taken (cpf : string) (w : World) : bool :=
  existsb (fun u => String.eqb (User.cpf u) cpf) (usuarios w).

(** Modelled from the spec: the schema of [usuarios] is not among the
    sources. Following the data model, [email] and [cpf] each carry a
    uniqueness constraint the store enforces at insert time, [id] is assigned
    by the store (a sequence, which advances whether or not the row is
    kept), a new row is active and its last-activity stamp is the time of
    the insert.

    [INSERT INTO usuarios (nome, cpf, email, telefone, senha)
     VALUES ($1, $2, $3, $4, $5) RETURNING id, nome, email] *)
Definition insert_usuario (nome cpf email : string) (telefone : option string)
    (senha : Bcrypt.hash) : Statement (list PublicUser.t) :=
  fun w =>
    let id := usuarios_id_seq w in
    let w' := mkWorld (usuarios w) (id + 1) (clock w) (salt w) (down w) (schedule w) in
    if email_taken email w then
      (inl (unique_violation "usuarios_email_key"), w')
    else if cpf_taken cpf w then
      (inl (unique_violation "usuarios_cpf_key"), w')
    else
      let row := User.mk id nome cpf email telefone senha true (clock w) in
      (inr [PublicUser.of_user row], with_usuarios w' (usuarios w ++ [row])).

(** [UPDATE usuarios SET ativo = $2 WHERE id = $1], which this backend never
    issues: deactivation is an administrator's act on the database. *)
Definition set_ativo (id : Z) (b : bool) (w : World) : World :=
  with_usuarios w
    (map (fun u => if Z.eqb (User.id u) id then User.set_ativo b u else u) (usuarios w)).

Definition apply_event (w : World) (e : Event) : World :=
  match e with
  | OtherInsert nome cpf email telefone senha =>
      snd (insert_usuario nome cpf email telefone senha w)
  | SetAtivo id b => set_ativo id b w
  | Tick dt =>
      mkWorld (usuarios w) (usuarios_id_seq w) (clock w + dt) (salt w) (down w) (schedule w)
  | Outage e => with_down w (Some e)
  | Recover => with_down w None
  end.

(** ** Handlers as computations over the world

    An [async] handler is a computation that reads and writes the world and
    may raise; the world outlives the exception. *)

Definition M (A : Type) : Type := World -> (Error + A) * World.

Definition ret {A : Type} (a : A) : M A := fun w => (inr a, w).

Definition bind {A B : Type} (m : M A) (k : A -> M B) : M B :=
  fun w =>
    match m w with
    | (inl e, w') => (inl e, w')
    | (inr a, w') => k a w'
    end.

Notation "x <- m ;; k" := (bind m (fun x => k))
  (at level 61, m at next level, right associativity).

Definition throw {A : Type} (e : Error) : M A := fun w => (inl e, w).

(** [try { body } catch (err) { handler }], both ending in a response. *)
Definition try_catch (body : M Response) (handler : Error -> Response)
    : World -> Response * World :=
  fun w =>
    match body w with
    | (inl err, w') => (handler err, w')
    | (inr res, w') => (res, w')
    end.

(** A suspension: the events scheduled for it happen. *)
Definition yield : M unit :=
  fun w =>
    match schedule w with
    | [] => (inr tt, w)
    | events :: later => (inr tt, fold_left apply_event events (with_schedule w later))
    end.

(** [await pool.query(...)]: suspend, then run the statement, which raises
    when the database is away. *)
Definition pool_query {A : Type} (stmt : Statement A) : M A :=
  _ <- yield ;;
  fun w =>
    match down w with
    | Some e => (inl e, w)
    | None => stmt w
    end.

(** [await] on a promise that settles without the store: it is fulfilled
    with a value, or rejected with an error, after a suspension. *)
Definition await {A : Type} (promise : Error + A) : M A :=
  _ <- yield ;; fun w => (promise, w).

Definition now : M Z := fun w => (inr (clock w), w).

Definition draw_salt : M string := fun w => (inr (salt w), w).

(** ** The validators of express-validator that the chains use *)

Definition digit (c : ascii) : bool :=
  (48 <=? nat_of_ascii c)%nat && (nat_of_ascii c <=? 57)%nat.

Definition lit (expected : ascii) (c : ascii) : bool := Ascii.eqb c expected.

(** An anchored pattern of one character class per position. *)
Fixpoint matches (pattern : list (ascii -> bool)) (s : string) : bool :=
  match pattern, s with
  | [], EmptyString => true
  | p :: ps, String c rest => p c && matches ps rest
  | _, _ => false
  end.

(** [/^\d{3}\.\d{3}\.\d{3}-\d{2}$/] *)
Definition cpf_pattern : list (ascii -> bool) :=
  [digit; digit; digit; lit "."; digit; digit; digit; lit ".";
   digit; digit; digit; lit "-"; digit; digit].

(** [/^\(\d{2}\) \d{4,5}-\d{4}$/]: four or five digits before the dash. *)
Definition telefone_pattern (n : nat) : list (ascii -> bool) :=
  [lit "("; digit; digit; lit ")"; lit " "] ++ repeat digit n
    ++ [lit "-"; digit; digit; digit; digit].

Definition matches_telefone (s : string) : bool :=
  matches (telefone_pattern 4) s || matches (telefone_pattern 5) s.

(** A byte that continues a character. *)
Definition continuation (c : ascii) : bool :=
  (128 <=? nat_of_ascii c)%nat && (nat_of_ascii c <=? 191)%nat.

(** A variation selector, U+FE0E or U+FE0F, at the head of a string. *)
Definition selector (s : string) : bool :=
  match s with
  | String c1 (String c2 (String c3 _)) =>
      (nat_of_ascii c1 =? 239)%nat && (nat_of_ascii c2 =? 184)%nat
      && ((nat_of_ascii c3 =? 142)%nat || (nat_of_ascii c3 =? 143)%nat)
  | _ => false
  end.

(** The length validator.js measures: the characters of the string, one
    outside the basic plane counting once and a variation selector not at
    all. *)
Fixpoint characters (s : string) : nat :=
  match s with
  | EmptyString => O
  | String c rest =>
      if continuation c || selector (String c rest) then characters rest
      else S (characters rest)
  end.

(** [isLength({min, max})] *)
Definition isLength (min : nat) (max : option nat) (s : string) : bool :=
  (min <=? characters s)%nat
  && match max with
     | Some m => (characters s <=? m)%nat
     | None => true
     end.

(** The whitespace of JavaScript, which [trim()] and [parseInt] skip, is
    six characters of ASCII and a few beyond it. The six, of one byte: *)
Definition is_space (c : ascii) : bool :=
  let n := nat_of_ascii c in
  (n =? 32)%nat || ((9 <=? n)%nat && (n <=? 13)%nat).

(** U+00A0, of two bytes. *)
Definition is_space2 (c1 c2 : ascii) : bool :=
  (nat_of_ascii c1 =? 194)%nat && (nat_of_ascii c2 =? 160)%nat.

(** U+1680, U+2000 to U+200A, U+2028, U+2029, U+202F, U+205F, U+3000
    and U+FEFF, of three bytes. *)
Definition is_space3 (c1 c2 c3 : ascii) : bool :=
  let x := nat_of_ascii c1 in
  let y := nat_of_ascii c2 in
  let z := nat_of_ascii c3 in
  ((x =? 225)%nat && (y =? 154)%nat && (z =? 128)%nat)
  || ((x =? 226)%nat && (y =? 128)%nat
      && (((128 <=? z)%nat && (z <=? 138)%nat) || (z =? 168)%nat || (z =? 169)%nat
          || (z =? 175)%nat))
  || ((x =? 226)%nat && (y =? 129)%nat && (z =? 159)%nat)
  || ((x =? 227)%nat && (y =? 128)%nat && (z =? 128)%nat)
  || ((x =? 239)%nat && (y =? 187)%nat && (z =? 191)%nat).

Fixpoint ltrim (s : string) : string :=
  match s with
  | EmptyString => EmptyString
  | String c1 rest1 =>
      if is_space c1 then ltrim rest1
      else if (nat_of_ascii c1 <? 128)%nat then s
      else
        match rest1 with
        | String c2 rest2 =>
            if is_space2 c1 c2 then ltrim rest2
            else
              match rest2 with
              | String c3 rest3 => if is_space3 c1 c2 c3 then ltrim rest3 else s
              | EmptyString => s
              end
        | EmptyString => s
        end
  end.

(** A string of whitespace from end to end. *)
Fixpoint all_space (s : string) : bool :=
  match s with
  | EmptyString => true
  | String c1 rest1 =>
      if is_space c1 then all_space rest1
      else if (nat_of_ascii c1 <? 128)%nat then false
      else
        match rest1 with
        | String c2 rest2 =>
            if is_space2 c1 c2 then all_space rest2
            else
              match rest2 with
              | String c3 rest3 => is_space3 c1 c2 c3 && all_space rest3
              | EmptyString => false
              end
        | EmptyString => false
        end
  end.

Fixpoint rtrim (s : string) : string :=
  match s with
  | EmptyString => EmptyString
  | String c rest => if all_space (String c rest) then EmptyString else String c (rtrim rest)
  end.

(** [trim()] *)
Definition trim (s : string) : string := rtrim (ltrim s).

(** [s.toLowerCase()] on the letters of ASCII, the ones a route path is
    compared by. *)
Definition lower (c : ascii) : ascii :=
  let n := nat_of_ascii c in
  if (65 <=? n)%nat && (n <=? 90)%nat then ascii_of_nat (n + 32) else c.

Fixpoint toLowerCase (s : string) : string :=
  match s with
  | EmptyString => EmptyString
  | String c rest => String (lower c) (toLowerCase rest)
  end.


(** ** A reference instance of the libraries

    Executable stand-ins for the packages, without any cryptography: they
    show that the guarantees the properties assume can be met, and they let
    the handlers run on concrete requests. *)

Module Reference.

Definition bit (b : bool) : ascii := if b then "1"%char else "0"%char.

Definition is_one (c : ascii) : bool := Ascii.eqb c "1"%char.

Fixpoint enc_pos (p : positive) : string :=
  match p with
  | xH => EmptyString
  | xO q => String "0" (enc_pos q)
  | xI q => String "1" (enc_pos q)
  end.

Fixpoint dec_pos (s : string) : positive :=
  match s with
  | EmptyString => xH
  | String c rest => if is_one c then xI (dec_pos rest) else xO (dec_pos rest)
  end.

Definition enc_Z (z : Z) : string :=
  match z with
  | Z0 => "z"
  | Zpos p => String "p" (enc_pos p)
  | Zneg p => String "n" (enc_pos p)
  end.

Definition dec_Z (s : string) : Z :=
  match s with
  | String "p" rest => Zpos (dec_pos rest)
  | String "n" rest => Zneg (dec_pos rest)
  | _ => Z0
  end.

(** A string as the bits of its characters. *)
Fixpoint enc_string (s : string) : string :=
  match s with
  | EmptyString => EmptyString
  | String (Ascii b0 b1 b2 b3 b4 b5 b6 b7) rest =>
      String (bit b0) (String (bit b1) (String (bit b2) (String (bit b3)
        (String (bit b4) (String (bit b5) (String (bit b6) (String (bit b7)
          (enc_string rest))))))))
  end.

Fixpoint dec_string (s : string) : string :=
  match s with
  | String c0 (String c1 (String c2 (String c3
      (String c4 (String c5 (String c6 (String c7 rest))))))) =>
      String (Ascii (is_one c0) (is_one c1) (is_one c2) (is_one c3)
                    (is_one c4) (is_one c5) (is_one c6) (is_one c7))
             (dec_string rest)
  | _ => EmptyString
  end.

Definition dot : ascii := "."%char.

(** The token is its content in clear, the secret standing for the
    signature. *)
Definition jwt_sign (c : Token.claims) (secret : string) (ttl t : Z) : string :=
  enc_Z (Token.userId c) ++ String dot (enc_string (Token.email c)
    ++ String dot (enc_string (Token.nome c)
    ++ String dot (enc_Z t
    ++ String dot (enc_Z (t + ttl)
    ++ String dot (enc_string secret))))).

Definition jwt_verify (token secret : string) (t : Z) : JwtError + Token.payload :=
  match split dot token with
  | [uid; email; nome; iat; exp; sig] =>
      if negb (String.eqb (dec_string sig) secret) then
        inl (JsonWebTokenError "invalid signature")
      else if (t <? dec_Z exp)%Z then
        inr (Token.mkPayload
               (Token.mkClaims (dec_Z uid) (dec_string email) (dec_string nome))
               (dec_Z iat) (dec_Z exp))
      else inl TokenExpiredError
  | _ => inl (JsonWebTokenError "jwt malformed")
  end.

(** A digest that hides nothing: the salt and the key, side by side. *)
Definition digest (cost : nat) (salt key : string) : string :=
  salt ++ String "$" key.

Definition bcrypt_hash : string -> nat -> string -> Bcrypt.hash :=
  PasswordVerifier.hash digest.

Definition bcrypt_compare : string -> Bcrypt.hash -> bool :=
  PasswordVerifier.verify digest.

Definition isEmail (s : string) : bool :=
  match split "@" s with
  | [name; domain] => negb (String.eqb name "") && contains dot domain
  | _ => false
  end.

Definition normalizeEmail (s : string) : string := s.

Definition validation_error (name : string) (value : option scalar) : json :=
  JObj [("type", JStr "field"); ("msg", JStr "Invalid value"); ("path", JStr name);
        ("location", JStr "body")].

Definition routes (req : Request) (w : World) : Response * World :=
  (res_json (JArr []), w).

(** A store with one user, Ana, and requests against it. *)

Definition ana : User.t :=
  User.mk 1 "Ana Silva" "123.456.789-01" "ana@x.com" None
          (bcrypt_hash "segredo1" 12 "s1") true 100.

Definition world : World := mkWorld [ana] 2 1000 "s2" None [].

Definition ana_token : string :=
  jwt_sign (Token.mkClaims 1 "ana@x.com" "Ana Silva") default_secret (24 * 60 * 60) 1000.

Definition get (p : string) (authorization : option string) : Request :=
  mkRequest p
    match authorization with
    | Some h => [("authorization", h)]
    | None => []
    end
    [] None.

(** A request whose body holds strings only. *)
Definition post (p : string) (data : list (string * string)) : Request :=
  mkRequest p [] (map (fun entry => (fst entry, SStr (snd entry))) data) None.

Definition ana_payload : Token.payload :=
  Token.mkPayload (Token.mkClaims 1 "ana@x.com" "Ana Silva") 1000 (1000 + 24 * 60 * 60).

(** The same store a day later, when Ana's token has run out. *)
Definition world_late : World := mkWorld [ana] 2 (1000 + 24 * 60 * 60) "s2" None [].

Definition tarefas_req : Request := get "/api/tarefas/7" (Some ("Bearer " ++ ana_token)).

Definition basic_req : Request := get "/api/tarefas" (Some ("Basic " ++ ana_token)).

Definition bare_req : Request := get "/api/tarefas" (Some ana_token).

Definition verify_req : Request := get "/api/auth/verify" (Some ("Bearer " ++ ana_token)).


Definition login_wrong : Request :=
  post "/api/auth/login" [("email", "ana@x.com"); ("senha", "abc")].

Definition login_right : Request :=
  post "/api/auth/login" [("email", "ana@x.com"); ("senha", "segredo1")].

Definition register_bia : Request :=
  post "/api/auth/register"
    [("nome", "Bia Lima"); ("cpf", "111.222.333-44"); ("email", "bia@x.com");
     ("senha", "segredo2")].

Definition register_short : Request :=
  post "/api/auth/register"
    [("nome", "Ana Silva"); ("cpf", "123.456.789-01"); ("email", "ana@x.com");
     ("senha", "abc")].

(** The form of [register_bia] sent twice: the second request's row is
    committed while the first one is hashing its password. *)
Definition racing : World :=
  mkWorld [ana] 2 1000 "s2" None
    [[]; []; [OtherInsert "Bia Lima" "111.222.333-44" "bia@x.com" None
                          (bcrypt_hash "segredo2" 12 "s9")]].

(** Two passwords of 73 characters that part at the last one. *)
Fixpoint replicate (n : nat) (c : ascii) : string :=
  match n with
  | O => EmptyString
  | S m => String c (replicate m c)
  end.

Definition long_b : string := replicate 72 "a" ++ "b".

Definition long_c : string := replicate 72 "a" ++ "c".

Definition register_long : Request :=
  post "/api/auth/register"
    [("nome", "Bia Lima"); ("cpf", "111.222.333-44"); ("email", "bia@x.com");
     ("senha", long_b)].

Definition login_long : Request :=
  post "/api/auth/login" [("email", "bia@x.com"); ("senha", long_c)].

(** The spec's first scenario: Ana registers on an empty store and calls
    /verify with the token she was given. *)
Definition empty : World := mkWorld [] 1 1000 "s1" None [].

Definition register_ana : Request :=
  post "/api/auth/register"
    [("nome", "Ana Silva"); ("cpf", "123.456.789-01"); ("email", "ana@x.com");
     ("senha", "segredo1")].

Definition token_of (res : Response) : string :=
  match field "token" (body res) with
  | Some (JStr t) => t
  | _ => ""
  end.

Definition user_of (res : Response) : json :=
  match field "user" (body res) with
  | Some u => u
  | None => JNull
  end.

(** A registration whose name is two spaces. *)
Definition register_blank : Request :=
  post "/api/auth/register"
    [("nome", "  "); ("cpf", "111.222.333-44"); ("email", "bia@x.com");
     ("senha", "segredo2")].

(** The store while the database cannot be reached. *)
Definition away : World :=
  mkWorld [ana] 2 1000 "s2" (Some (mkError (Some "ECONNREFUSED") "connect ECONNREFUSED")) [].

(** Ana's good login again, on another path, with a header and a field the
    handler has no use for. *)
Definition login_noisy : Request :=
  mkRequest "/api/auth/login" [("authorization", "Bearer x")]
    [("admin", SBool true); ("email", SStr "ana@x.com"); ("senha", SStr "segredo1")] None.


Definition login_number_known : Request :=
  mkRequest "/api/auth/login" []
    [("email", SStr "ana@x.com"); ("senha", SNum 123456)] None.


Definition register_accents : Request :=
  post "/api/auth/register"
    [("nome", "Bia Lima"); ("cpf", "111.222.333-44"); ("email", "bia@x.com");
     ("senha", "ééééé")].

(** U+FE0F, the variation selector that asks for an emoji, and a login of
    Ana whose password is nothing else. *)
Definition selector16 : string :=
  String (ascii_of_nat 239) (String (ascii_of_nat 184) (String (ascii_of_nat 143) EmptyString)).

Definition login_selector : Request :=
  post "/api/auth/login" [("email", "ana@x.com"); ("senha", selector16)].

(** Bia's email under another cpf, and her cpf under another email. *)
Definition register_same_email : Request :=
  post "/api/auth/register"
    [("nome", "Bia Souza"); ("cpf", "555.666.777-88"); ("email", "bia@x.com");
     ("senha", "outrasenha")].

Definition register_same_cpf : Request :=
  post "/api/auth/register"
    [("nome", "Bia Souza"); ("cpf", "111.222.333-44"); ("email", "bia2@x.com");
     ("senha", "outrasenha")].

(** Stand-ins for the tables of drivers and trucks: the licence number
    12345678900 and the plate ABC1D23 are taken. *)
Definition insert_motorista (nome cnh telefone email : option scalar)
    : Statement (list json) :=
  fun w =>
    if String.eqb (field_text cnh) "12345678900" then
      (inl (unique_violation "motoristas_cnh_key"), w)
    else
      (inr [JObj [("id", JNum 1); ("nome", JStr (field_text nome));
                  ("cnh", JStr (field_text cnh))]], w).

Definition insert_caminhao (placa modelo marca ano capacidade : option scalar)
    : Statement (list json) :=
  fun w =>
    if String.eqb (field_text placa) "ABC1D23" then
      (inl (unique_violation "caminhoes_placa_key"), w)
    else
      (inr [JObj [("id", JNum 1); ("placa", JStr (field_text placa));
                  ("modelo", JStr (field_text modelo))]], w).

(** A store that answers every statement with one row repeating its text
    and values. *)
Definition run_sql (text : string) (values : list scalar) : Statement (list json) :=
  fun w => (inr [JObj [("text", JStr text); ("values", JArr (map to_json values))]], w).

Definition motorista_new : Request :=
  post "/api/motoristas" [("nome", "Caio"); ("cnh", "98765432100")].

Definition motorista_taken : Request :=
  post "/api/motoristas" [("nome", "Caio"); ("cnh", "12345678900")].

Definition caminhao_new : Request :=
  post "/api/caminhoes" [("placa", "XYZ9A87"); ("modelo", "Atego")].

Definition caminhao_taken : Request :=
  post "/api/caminhoes" [("placa", "ABC1D23"); ("modelo", "Atego")].

Definition patch_req : Request :=
  mkRequest "/api/tarefas/7" [] [("status", SStr "Concluída"); ("peso", SNum 10)] None.

End Reference.

Section Auth.

#[local] Set Default Proof Using "Type".

(** [process.env.JWT_SECRET]. *)
Variable env_JWT_SECRET : option string.

(** [jwt.sign(payload, secret, {expiresIn})] at clock [now] (seconds), the
    lifetime in seconds, and [jwt.verify(token, secret)] at clock [now]. *)
Variable jwt_sign : Token.claims -> string -> Z -> Z -> string.
Variable jwt_verify : string -> string -> Z -> JwtError + Token.payload.

(** What [bcrypt.hash(password, rounds)] computes for a string, with the
    salt it drew, and what [bcrypt.compare(password, hash)] does. *)
Variable bcrypt_hash : string -> nat -> string -> Bcrypt.hash.
Variable bcrypt_compare : string -> Bcrypt.hash -> bool.

(** [isEmail()] and [normalizeEmail()] of express-validator, and the
    entry [validationResult] reports for a field and its value. *)
Variable isEmail : string -> bool.
Variable normalizeEmail : string -> string.
Variable validation_error : string -> option scalar -> json.

(** The route handlers mounted behind the gate in server.js, and the
    [INSERT INTO motoristas ... RETURNING *] of one of them, with its four
    values, on a table outside the authentication core. *)
Variable routes : Request -> World -> Response * World.
Variable insert_motorista :
  option scalar -> option scalar -> option scalar -> option scalar -> Statement (list json).

(** The [INSERT INTO caminhoes ... RETURNING *] of the handler for trucks,
    and [pool.query(text, values)] on a statement built at run time, both
    on tables outside the authentication core. *)
Variable insert_caminhao :
  option scalar -> option scalar -> option scalar -> option scalar -> option scalar
  -> Statement (list json).
Variable run_sql : string -> list scalar -> Statement (list json).

(** [SELECT COUNT( * ) as total FROM motoristas] and its twin on trucks: the
    [total] column of the rows, which node-postgres hands over as text. *)
Variable count_motoristas : Statement (list string).
Variable count_caminhoes : Statement (list string).

(** [process.env.JWT_SECRET || '...']: an unset or empty variable gives
    the development default. *)
Definition JWT_SECRET : string :=
  match env_JWT_SECRET with
  | Some s => if truthy (Some s) then s else default_secret
  | None => default_secret
  end.

(** [authHeader && authHeader.split(' ')[1]]. *)
Definition bearer (authHeader : option string) : option string :=
  js_and authHeader (fun h => nth_error (split space h) 1).

(** [authenticateToken] of middleware/auth.js, at clock [now]. *)
Definition authenticateToken (now : Z) (req : Request) : Outcome :=
  let authHeader := assoc "authorization" (headers req) in
  let token := bearer authHeader in
  if negb (truthy token) then
    Responded (mkResponse 401 (JObj [("error", JStr "Token de acesso requerido")]))
  else
    match jwt_verify (text token) JWT_SECRET now with
    | inl err =>
        Responded (mkResponse 403 (JObj [("error", JStr "Token inválido ou expirado")]))
    | inr decoded => Next (set_user req decoded)
    end.

(** *** server.js: the gate in front of the protected namespaces *)

Definition protected_mounts : list string :=
  ["/api/tarefas"; "/api/motoristas"; "/api/caminhoes"; "/api/estatisticas"].

(** [app.use(mount, ...)] takes the mount path itself and what lies
    below it, and Express compares paths without regard to case. *)
Definition mounted (mount p : string) : bool :=
  String.eqb (toLowerCase p) (toLowerCase mount)
  || String.prefix (toLowerCase mount ++ "/") (toLowerCase p).

Definition gated (p : string) : bool :=
  existsb (fun mount => mounted mount p) protected_mounts.

(** The middleware chain from the gate on. *)
Definition app (req : Request) : World -> Response * World :=
  fun w =>
    if gated (path req) then
      match authenticateToken (clock w) req with
      | Responded res => (res, w)
      | Next req' => routes req' w
      end
    else routes req w.

(** *** routes/auth.js *)

(** ['24h'] in seconds. *)
Definition expiresIn : Z := 24 * 60 * 60.

(** [generateToken], at clock [t]. *)
Definition generateToken (t : Z) (userId : Z) (email nome : string) : string :=
  jwt_sign (Token.mkClaims userId email nome) JWT_SECRET expiresIn t.

(** One validation chain: the entry it contributes to [validationResult]. *)
Definition check (req : Request) (name : string) (valid : string -> bool) : list json :=
  if valid (field_text (assoc name (fields req))) then []
  else [validation_error name (assoc name (fields req))].

(** [.optional()]: an absent field is not validated. *)
Definition optional (req : Request) (name : string) (valid : string -> bool) : list json :=
  match assoc name (fields req) with
  | None => []
  | Some _ => check req name valid
  end.

Definition isEmpty (errors : list json) : bool :=
  match errors with
  | [] => true
  | _ :: _ => false
  end.

Definition invalid (errors : list json) : Response :=
  mkResponse 400 (JObj [("error", JStr "Dados inválidos"); ("details", JArr errors)]).

Definition internal_error (err : Error) : Response :=
  mkResponse 500 (JObj [("error", JStr "Erro interno do servidor");
                        ("details", JStr (message err))]).

Definition public_fields (id : Z) (nome email : string) : json :=
  JObj [("id", JNum id); ("nome", JStr nome); ("email", JStr email)].

Definition login_errors (req : Request) : list json :=
  check req "email" isEmail ++ check req "senha" (isLength 1 None).

Definition bad_credentials : Response :=
  mkResponse 401 (JObj [("error", JStr "Email ou senha incorretos")]).

(** The promise of [bcrypt.compare(s, hash)]: bcryptjs rejects an [s]
    that is not a string. *)
Definition compare_promise (s : option scalar) (h : Bcrypt.hash) : Error + bool :=
  match s with
  | Some (SStr password) => inr (bcrypt_compare password h)
  | _ => inl (mkError None ("Illegal arguments: " ++ typeof s ++ ", string"))
  end.

(** The promise of [bcrypt.hash(s, rounds)], with the salt drawn for it. *)
Definition hash_promise (s : option scalar) (rounds : nat) (salt : string)
    : Error + Bcrypt.hash :=
  match s with
  | Some (SStr password) => inr (bcrypt_hash password rounds salt)
  | _ => inl (mkError None ("Illegal arguments: " ++ typeof s ++ ", number"))
  end.

(** [router.post('/login', ...)]. The email is read after
    [normalizeEmail()] rewrote it, the password as it was sent. *)
Definition login (req : Request) : World -> Response * World :=
  try_catch
    (let errors := login_errors req in
     if negb (isEmpty errors) then ret (invalid errors)
     else
       let email := normalizeEmail (field_text (assoc "email" (fields req))) in
       let senha := assoc "senha" (fields req) in
       userResult <- pool_query (select_active_by_email email) ;;
       match userResult with
       | [] => ret bad_credentials
       | user :: _ =>
           senhaValida <- await (compare_promise senha (User.senha user)) ;;
           if negb senhaValida then ret bad_credentials
           else
             t <- now ;;
             let token := generateToken t (User.id user) (User.email user) (User.nome user) in
             _ <- pool_query (update_ultima_atualizacao (User.id user)) ;;
             ret (res_json
                    (JObj [("message", JStr "Login realizado com sucesso");
                           ("token", JStr token);
                           ("user", public_fields (User.id user) (User.nome user)
                                                  (User.email user))]))
       end)
    internal_error.

Definition register_errors (req : Request) : list json :=
  check req "nome" (isLength 2 (Some 100))
  ++ check req "cpf" (matches cpf_pattern)
  ++ check req "email" isEmail
  ++ optional req "telefone" matches_telefone
  ++ check req "senha" (isLength 6 None).

Definition conflict (what : string) : Response :=
  mkResponse 409 (JObj [("error", JStr what)]).

(** [router.post('/register', ...)]. The name and the email are read
    after [trim()] and [normalizeEmail()] rewrote them; the cpf and the
    telephone reach the statement as sent, where node-postgres passes them
    as text. *)
Definition register (req : Request) : World -> Response * World :=
  try_catch
    (let errors := register_errors req in
     if negb (isEmpty errors) then ret (invalid errors)
     else
       let nome := trim (field_text (assoc "nome" (fields req))) in
       let cpf := field_text (assoc "cpf" (fields req)) in
       let email := normalizeEmail (field_text (assoc "email" (fields req))) in
       let telefone := sql_text (assoc "telefone" (fields req)) in
       let senha := assoc "senha" (fields req) in
       emailExists <- pool_query (select_id_by_email email) ;;
       if (0 <? List.length emailExists)%nat then
         ret (conflict "Este email já está cadastrado")
       else
         cpfExists <- pool_query (select_id_by_cpf cpf) ;;
         if (0 <? List.length cpfExists)%nat then
           ret (conflict "Este CPF já está cadastrado")
         else
           let saltRounds := 12%nat in
           s <- draw_salt ;;
           senhaHash <- await (hash_promise senha saltRounds s) ;;
           result <- pool_query (insert_usuario nome cpf email telefone senhaHash) ;;
           match result with
           | [] => throw (mkError None "Cannot read properties of undefined (reading 'id')")
           | newUser :: _ =>
               t <- now ;;
               let token := generateToken t (PublicUser.id newUser)
                              (PublicUser.email newUser) (PublicUser.nome newUser) in
               ret (mkResponse 201
                      (JObj [("message", JStr "Usuário cadastrado com sucesso");
                             ("token", JStr token);
                             ("user", public_fields (PublicUser.id newUser)
                                        (PublicUser.nome newUser)
                                        (PublicUser.email newUser))]))
           end)
    internal_error.

(** The synchronous [jwt.verify(token, secret)], which throws. *)
Definition jwt_verify_sync (token : string) : M Token.payload :=
  t <- now ;;
  match jwt_verify token JWT_SECRET t with
  | inl TokenExpiredError => throw (mkError None "jwt expired")
  | inl (JsonWebTokenError m) => throw (mkError None m)
  | inr decoded => ret decoded
  end.

(** [router.get('/verify', ...)] *)
Definition verify (req : Request) : World -> Response * World :=
  let authHeader := assoc "authorization" (headers req) in
  let token := bearer authHeader in
  if negb (truthy token) then
    fun w => (mkResponse 401 (JObj [("error", JStr "Token não fornecido")]), w)
  else
    try_catch
      (decoded <- jwt_verify_sync (text token) ;;
       userResult <- pool_query
                       (select_public_active_by_id (Token.userId (Token.body decoded))) ;;
       match userResult with
       | [] => ret (mkResponse 401 (JObj [("error", JStr "Usuário não encontrado ou inativo")]))
       | row :: _ =>
           ret (res_json (JObj [("valid", JBool true); ("user", PublicUser.to_json row)]))
       end)
      (fun err => mkResponse 401 (JObj [("error", JStr "Token inválido")])).

(** *** server.js: a handler that maps the store's constraint signal *)

(** [app.post('/api/motoristas', ...)] *)
Definition post_motoristas (req : Request) : World -> Response * World :=
  try_catch
    (let nome := assoc "nome" (fields req) in
     let cnh := assoc "cnh" (fields req) in
     let telefone := assoc "telefone" (fields req) in
     let email := assoc "email" (fields req) in
     if negb (js_truthy nome) || negb (js_truthy cnh) then
       ret (mkResponse 400 (JObj [("error", JStr "Nome e CNH são obrigatórios")]))
     else
       result <- pool_query (insert_motorista nome cnh telefone email) ;;
       ret (mkResponse 201 (hd JNull result)))
    (fun err =>
       if match code err with
          | Some c => String.eqb c "23505"
          | None => false
          end
       then mkResponse 409 (JObj [("error", JStr "CNH já cadastrada no sistema")])
       else internal_error err).

(** [app.post('/api/caminhoes', ...)] *)
Definition post_caminhoes (req : Request) : World -> Response * World :=
  try_catch
    (let placa := assoc "placa" (fields req) in
     let modelo := assoc "modelo" (fields req) in
     let marca := assoc "marca" (fields req) in
     let ano := assoc "ano" (fields req) in
     let capacidade := assoc "capacidade" (fields req) in
     if negb (js_truthy placa) || negb (js_truthy modelo) then
       ret (mkResponse 400 (JObj [("error", JStr "Placa e modelo são obrigatórios")]))
     else
       result <- pool_query (insert_caminhao placa modelo marca ano capacidade) ;;
       ret (mkResponse 201 (hd JNull result)))
    (fun err =>
       if match code err with
          | Some c => String.eqb c "23505"
          | None => false
          end
       then mkResponse 409 (JObj [("error", JStr "Placa já cadastrada no sistema")])
       else internal_error err).

(** A number in a template literal: its decimal digits. *)
Definition number (n : nat) : string := NilEmpty.string_of_uint (Nat.to_uint n).

(** [list.map((item, index) => f(item, index))], counting from [index]. *)
Fixpoint map_indexed {A B : Type} (f : A -> nat -> B) (l : list A) (index : nat) : list B :=
  match l with
  | [] => []
  | item :: rest => f item index :: map_indexed f rest (S index)
  end.

(** [fields.map((field, index) => `${field} = $${index + 1}`).join(', ')] *)
Definition setClause (keys : list string) : string :=
  String.concat ", "
    (map_indexed (fun key index => key ++ " = $" ++ number (index + 1)) keys 0).

(** [`UPDATE tarefas SET ${setClause} WHERE id = $${fields.length + 1} RETURNING *`] *)
Definition patch_query (keys : list string) : string :=
  "UPDATE tarefas SET " ++ setClause keys ++ " WHERE id = $"
    ++ number (List.length keys + 1) ++ " RETURNING *".

(** [app.patch('/api/tarefas/:id', ...)], [id] being the route parameter
    and the body's keys and values those of [Object.keys] and
    [Object.values]. *)
Definition patch_tarefas (id : string) (req : Request) : World -> Response * World :=
  try_catch
    (let updates := fields req in
     let keys := map fst updates in
     let values := map snd updates in
     if (List.length keys =? 0)%nat then
       ret (mkResponse 400 (JObj [("error", JStr "Nenhum campo para atualizar")]))
     else
       let query := patch_query keys in
       result <- pool_query (run_sql query (values ++ [SStr id])) ;;
       match result with
       | [] => ret (mkResponse 404 (JObj [("error", JStr "Tarefa não encontrada")]))
       | row :: _ => ret (res_json row)
       end)
    internal_error.

(** The value of a character as a digit of a radix up to 16. *)
Definition digit_value (radix : nat) (c : ascii) : option nat :=
  let n := nat_of_ascii c in
  let v := if (48 <=? n)%nat && (n <=? 57)%nat then Some (n - 48)%nat
           else if (97 <=? n)%nat && (n <=? 102)%nat then Some (n - 87)%nat
           else if (65 <=? n)%nat && (n <=? 70)%nat then Some (n - 55)%nat
           else None in
  match v with
  | Some d => if (d <? radix)%nat then Some d else None
  | None => None
  end.

(** The value of the longest run of digits a string starts with. *)
Fixpoint parse_digits (radix : nat) (s : string) (acc : nat) : nat :=
  match s with
  | EmptyString => acc
  | String c rest =>
      match digit_value radix c with
      | Some d => parse_digits radix rest (radix * acc + d)
      | None => acc
      end
  end.

Definition starts_with_digit (radix : nat) (s : string) : bool :=
  match s with
  | EmptyString => false
  | String c _ =>
      match digit_value radix c with
      | Some _ => true
      | None => false
      end
  end.

(** [parseInt(s)] without a radix, [None] standing for NaN: leading
    whitespace is skipped, then a sign, then [0x] or [0X], which selects
    radix 16; the digits that follow are read as far as they go. Exact as
    long as the value is below 2^53. *)
Definition parseInt (s : string) : option Z :=
  let s1 := ltrim s in
  let (sign, s2) :=
    match s1 with
    | String "-" rest => ((-1)%Z, rest)
    | String "+" rest => (1%Z, rest)
    | _ => (1%Z, s1)
    end in
  let (radix, s3) :=
    match s2 with
    | String "0" (String "x" rest) => (16%nat, rest)
    | String "0" (String "X" rest) => (16%nat, rest)
    | _ => (10%nat, s2)
    end in
  if starts_with_digit radix s3 then Some (sign * Z.of_nat (parse_digits radix s3 0))%Z
  else None.

Definition json_number (n : option Z) : json :=
  match n with
  | Some z => JNum z
  | None => JNull
  end.

(** [app.get('/api/estatisticas/total_motoristas', ...)] *)
Definition total_motoristas (req : Request) : World -> Response * World :=
  try_catch
    (result <- pool_query count_motoristas ;;
     match result with
     | [] => throw (mkError None "Cannot read properties of undefined (reading 'total')")
     | total :: _ => ret (res_json (JObj [("total", json_number (parseInt total))]))
     end)
    internal_error.

(** [app.get('/api/estatisticas/total_caminhoes', ...)] *)
Definition total_caminhoes (req : Request) : World -> Response * World :=
  try_catch
    (result <- pool_query count_caminhoes ;;
     match result with
     | [] => throw (mkError None "Cannot read properties of undefined (reading 'total')")
     | total :: _ => ret (res_json (JObj [("total", json_number (parseInt total))]))
     end)
    internal_error.

(** *** Vocabulary of the properties *)

(** The second space-separated part of the Authorization header. *)
Definition second_part (authHeader : option string) : option string :=
  match authHeader with
  | None => None
  | Some h => nth_error (split space h) 1
  end.

Definition authorization (req : Request) : option string :=
  assoc "authorization" (headers req).

(** The world after the next suspension: what the statement issued
    there finds. *)
Definition arrives (w : World) : World := snd (yield w).

(** The credentials a request carries, as the handlers read them after
    the sanitizers ran. *)
Definition email_of (req : Request) : string :=
  normalizeEmail (field_text (assoc "email" (fields req))).

Definition senha_of (req : Request) : option scalar := assoc "senha" (fields req).

Definition nome_of (req : Request) : string := trim (field_text (assoc "nome" (fields req))).

Definition cpf_of (req : Request) : string := field_text (assoc "cpf" (fields req)).

Definition telefone_of (req : Request) : option string :=
  sql_text (assoc "telefone" (fields req)).

(** What [jsonwebtoken] documents: a token verifies under the secret it
    was signed with, giving back the signed claims with the two stamps, as
    long as the clock is before the expiry, and is refused as expired from
    then on; and a token is a non-empty string without spaces. *)
Definition jwt_round_trip : Prop :=
  forall c secret ttl t0 t,
    jwt_verify (jwt_sign c secret ttl t0) secret t =
      if (t <? t0 + ttl)%Z then inr (Token.mkPayload c t0 (t0 + ttl))
      else inl TokenExpiredError.

Definition jwt_compact : Prop :=
  forall c secret ttl t0,
    contains space (jwt_sign c secret ttl t0) = false
    /\ jwt_sign c secret ttl t0 <> "".

Definition created (t : Z) (u : PublicUser.t) : Response :=
  mkResponse 201
    (JObj [("message", JStr "Usuário cadastrado com sucesso");
           ("token", JStr (generateToken t (PublicUser.id u) (PublicUser.email u)
                                         (PublicUser.nome u)));
           ("user", JObj [("id", JNum (PublicUser.id u)); ("nome", JStr (PublicUser.nome u));
                          ("email", JStr (PublicUser.email u))])]).

Definition invalid_token : Response :=
  mkResponse 401 (JObj [("error", JStr "Token inválido")]).

Definition inactive : Response :=
  mkResponse 401 (JObj [("error", JStr "Usuário não encontrado ou inativo")]).

Definition login_ok (t : Z) (u : User.t) : Response :=
  mkResponse 200
    (JObj [("message", JStr "Login realizado com sucesso");
           ("token", JStr (generateToken t (User.id u) (User.email u) (User.nome u)));
           ("user", JObj [("id", JNum (User.id u)); ("nome", JStr (User.nome u));
                          ("email", JStr (User.email u))])]).



Definition unauthorized : Response :=
  mkResponse 401 (JObj [("error", JStr "Token de acesso requerido")]).

Definition forbidden : Response :=
  mkResponse 403 (JObj [("error", JStr "Token inválido ou expirado")]).

(** Emails, cpfs and ids each name one row at most, and the sequence is
    ahead of every id. *)
Definition consistent (w : World) : Prop :=
  NoDup (map User.email (usuarios w)) /\ NoDup (map User.cpf (usuarios w))
  /\ NoDup (map User.id (usuarios w))
  /\ Forall (fun u => (User.id u < usuarios_id_seq w)%Z) (usuarios w).

(** The longest run of digits a string starts with. *)
Fixpoint digits (s : string) : string :=
  match s with
  | EmptyString => EmptyString
  | String c rest => if digit c then String c (digits rest) else EmptyString
  end.

(** A plain column name: a letter or an underscore, then letters, digits
    and underscores. *)
Definition letter (c : ascii) : bool :=
  let n := nat_of_ascii c in
  ((65 <=? n)%nat && (n <=? 90)%nat) || ((97 <=? n)%nat && (n <=? 122)%nat)
  || (n =? 95)%nat.

Fixpoint word (s : string) : bool :=
  match s with
  | EmptyString => true
  | String c rest => (letter c || digit c) && word rest
  end.

Definition identifier (s : string) : bool :=
  match s with
  | EmptyString => false
  | String c rest => letter c && word rest
  end.

(** The dollar signs followed by digits, in the order of the text. In a
    statement without quoted text, comment or dollar sign inside a name,
    they are the parameter placeholders PostgreSQL reads. *)
Fixpoint placeholders (s : string) : list nat :=
  match s with
  | EmptyString => []
  | String c rest =>
      if Ascii.eqb c "$" then
        match digits rest, NilEmpty.uint_of_string (digits rest) with
        | String _ _, Some d => Nat.of_uint d :: placeholders rest
        | _, _ => placeholders rest
        end
      else placeholders rest
  end.

(** The bytes of a string before its first zero byte. *)
Fixpoint until_zero (s : string) : string :=
  match s with
  | EmptyString => EmptyString
  | String c rest =>
      if Ascii.eqb c PasswordVerifier.zero then EmptyString else String c (until_zero rest)
  end.

(** A password without a zero byte. *)
Definition plain (s : string) : bool := negb (contains PasswordVerifier.zero s).

(** A string that does not go on with a digit. *)
Definition stops (s : string) : bool :=
  match s with
  | EmptyString => true
  | String c _ => negb (digit c)
  end.

(** ** Properties *)

(** *** Splitting a header *)

Lemma split_cons (sep : ascii) (s : string) :
  exists piece pieces, split sep s = piece :: pieces.
Proof.
  induction s as [| c rest IH]; simpl.
  - eauto.
  - destruct (Ascii.eqb c sep); [eauto |].
    destruct IH as (piece & pieces & ->). eauto.
Qed.

Lemma split_without (sep : ascii) (s : string) :
  contains sep s = false -> split sep s = [s].
Proof.
  induction s as [| c rest IH]; simpl; [reflexivity |].
  intros H. apply orb_false_iff in H as [Hc Hrest].
  rewrite Hc, (IH Hrest). reflexivity.
Qed.

Lemma split_at (sep : ascii) (s rest : string) :
  contains sep s = false ->
  split sep (s ++ String sep rest) = s :: split sep rest.
Proof.
  induction s as [| c s' IH]; simpl.
  - intros _. rewrite Ascii.eqb_refl. reflexivity.
  - intros H. apply orb_false_iff in H as [Hc Hs'].
    rewrite Hc, (IH Hs'). reflexivity.
Qed.

Lemma truthy_text (v : option string) :
  truthy v = true -> v = Some (text v) /\ text v <> "".
Proof.
  destruct v as [s |]; simpl; [| discriminate].
  intros H. split; [reflexivity |].
  intros ->. discriminate.
Qed.

(** The token the gate reads is the non-empty second part of a header. *)
Lemma bearer_second_part (h : option string) :
  truthy (bearer h) = truthy (second_part h)
  /\ (truthy (second_part h) = true -> bearer h = second_part h).
Proof.
  destruct h as [s |]; [| simpl; auto].
  unfold bearer, js_and, second_part.
  destruct (truthy (Some s)) eqn:Hs.
  - split; reflexivity.
  - simpl in Hs. apply negb_false_iff, String.eqb_eq in Hs. subst s.
    simpl. split; [reflexivity | discriminate].
Qed.

(** *** The gate *)

Lemma gate_rejects_missing (t : Z) (req : Request) :
  truthy (second_part (authorization req)) = false ->
  authenticateToken t req = Responded unauthorized.
Proof.
  intros H. unfold authenticateToken. fold (authorization req).
  destruct (bearer_second_part (authorization req)) as [-> _].
  rewrite H. reflexivity.
Qed.

Lemma gate_verifies (t : Z) (req : Request) (token : string) :
  second_part (authorization req) = Some token -> token <> "" ->
  authenticateToken t req =
    match jwt_verify token JWT_SECRET t with
    | inl _ => Responded forbidden
    | inr decoded => Next (set_user req decoded)
    end.
Proof.
  intros Hpart Hne. unfold authenticateToken. fold (authorization req).
  assert (Htruthy : truthy (second_part (authorization req)) = true).
  { rewrite Hpart. simpl. apply negb_true_iff, String.eqb_neq. exact Hne. }
  destruct (bearer_second_part (authorization req)) as [-> Heq].
  rewrite Htruthy, (Heq Htruthy), Hpart. reflexivity.
Qed.

Lemma app_assoc (a b c : string) : (a ++ b) ++ c = a ++ b ++ c.
Proof.
  induction a as [| x a IH]; simpl; [reflexivity | now rewrite IH].
Qed.

Lemma prefix_app (a b : string) : String.prefix a (a ++ b) = true.
Proof.
  induction a as [| c a IH]; simpl.
  - destruct b; reflexivity.
  - destruct (ascii_dec c c); [exact IH | congruence].
Qed.

Lemma toLowerCase_app (a b : string) :
  toLowerCase (a ++ b) = toLowerCase a ++ toLowerCase b.
Proof.
  induction a as [| c a IH]; simpl; [reflexivity | now rewrite IH].
Qed.

(** The four namespaces of server.js, and everything below them, sit
    behind the gate, in whatever case the path is written. *)
Lemma mounts_gated (mount p rest : string) :
  In mount protected_mounts ->
  (toLowerCase p = mount -> gated p = true)
  /\ (toLowerCase p = mount ++ "/" ++ rest -> gated p = true).
Proof.
  intros Hin.
  assert (Hlower : toLowerCase mount = mount).
  { simpl in Hin. decompose [or] Hin; subst; try reflexivity. contradiction. }
  unfold gated. split; intros Hp; apply existsb_exists; exists mount; split; trivial;
    unfold mounted; rewrite Hp, Hlower.
  - rewrite String.eqb_refl. reflexivity.
  - rewrite <- app_assoc, prefix_app. apply orb_true_r.
Qed.

Example gate_examples :
  gated "/api/tarefas" = true /\ gated "/API/Tarefas/7" = true
  /\ gated "/api/tarefas2" = false /\ gated "/api/auth/login" = false.
Proof. repeat split; reflexivity. Qed.

(** C1. On a request to a path behind the gate (the task, driver, truck
    and statistics namespaces), the outcome is one of three, settled by the
    Authorization header alone: without a second space-separated part
    (header absent, no space in it, or nothing after its first space) the
    answer is 401 and the route handler is not reached; with a token that
    [jwt.verify] refuses under the shared secret, whatever the reason, the
    answer is 403 with [{error: "Token inválido ou expirado"}], the handler
    again not reached; otherwise the handler runs on the request with the
    decoded claims attached as [req.user]. *)
Theorem gate_outcomes (req : Request) (w : World) :
  gated (path req) = true ->
  (truthy (second_part (authorization req)) = false ->
     app req w = (mkResponse 401 (JObj [("error", JStr "Token de acesso requerido")]), w))
  /\ (forall token,
        second_part (authorization req) = Some token -> token <> "" ->
        (forall err,
           jwt_verify token JWT_SECRET (clock w) = inl err ->
           app req w = (mkResponse 403 (JObj [("error", JStr "Token inválido ou expirado")]), w))
        /\ (forall decoded,
              jwt_verify token JWT_SECRET (clock w) = inr decoded ->
              app req w = routes (mkRequest (path req) (headers req) (fields req)
                                            (Some decoded)) w))
  /\ (truthy (second_part (authorization req)) = false
      \/ exists token,
           second_part (authorization req) = Some token /\ token <> ""
           /\ ((exists err, jwt_verify token JWT_SECRET (clock w) = inl err)
               \/ exists decoded, jwt_verify token JWT_SECRET (clock w) = inr decoded)).
Proof.
  intros Hgated. unfold app. rewrite Hgated. repeat split.
  - intros H. rewrite (gate_rejects_missing _ _ H). reflexivity.
  - intros err Hv. rewrite (gate_verifies _ _ _ H H0), Hv. reflexivity.
  - intros decoded Hv. rewrite (gate_verifies _ _ _ H H0), Hv. reflexivity.
  - destruct (truthy (second_part (authorization req))) eqn:Htruthy; [right | left; reflexivity].
    destruct (truthy_text _ Htruthy) as [Heq Hne].
    exists (text (second_part (authorization req))). repeat split; trivial.
    destruct (jwt_verify _ JWT_SECRET (clock w)) as [err | decoded]; eauto.
Qed.

(** C10. The gate never looks at the scheme word. Whatever stands before
    the first space of the header ("Bearer", "Basic", anything without a
    space, even nothing), the piece between the first space and the next
    one is the token, and the outcome is that of [jwt.verify] on it; a
    header without a space, be it the bare token or "Bearer" alone, is
    answered 401 as if no token had been sent. *)
Theorem gate_ignores_scheme (t : Z) (req : Request) (h : string) :
  authorization req = Some h ->
  (forall scheme rest,
     h = scheme ++ String space rest -> contains space scheme = false ->
     hd "" (split space rest) <> "" ->
     authenticateToken t req =
       match jwt_verify (hd "" (split space rest)) JWT_SECRET t with
       | inl _ => Responded (mkResponse 403 (JObj [("error", JStr "Token inválido ou expirado")]))
       | inr decoded => Next (set_user req decoded)
       end)
  /\ (contains space h = false ->
      authenticateToken t req =
        Responded (mkResponse 401 (JObj [("error", JStr "Token de acesso requerido")]))).
Proof.
  intros Hh. split.
  - intros scheme rest -> Hscheme Hne.
    apply gate_verifies; [| exact Hne].
    rewrite Hh. simpl. rewrite (split_at _ _ _ Hscheme).
    destruct (split_cons space rest) as (piece & pieces & ->). reflexivity.
  - intros Hnone. apply gate_rejects_missing.
    rewrite Hh. simpl. rewrite (split_without _ _ Hnone). reflexivity.
Qed.

(** *** Running a handler *)

Lemma arrives_quiet (w : World) : schedule w = [] -> arrives w = w.
Proof.
  unfold arrives, yield. intros ->. reflexivity.
Qed.

Lemma yield_run (w : World) : yield w = (inr tt, arrives w).
Proof.
  unfold arrives, yield. destruct (schedule w); reflexivity.
Qed.

Lemma pool_query_run {A : Type} (stmt : Statement A) (w : World) :
  pool_query stmt w =
    match down (arrives w) with
    | Some e => (inl e, arrives w)
    | None => stmt (arrives w)
    end.
Proof.
  unfold pool_query, bind. rewrite yield_run. reflexivity.
Qed.

Lemma await_run {A : Type} (promise : Error + A) (w : World) :
  await promise w = (promise, arrives w).
Proof.
  unfold await, bind. rewrite yield_run. reflexivity.
Qed.

(** [login] step by step: the lookup after the first suspension, the
    comparison across the second, the update after the third. *)
Lemma login_run (req : Request) (w : World) :
  login_errors req = [] ->
  login req w =
    let w1 := arrives w in
    match down w1 with
    | Some e => (internal_error e, w1)
    | None =>
        match active_by_email (email_of req) w1 with
        | [] => (bad_credentials, w1)
        | u :: _ =>
            let w2 := arrives w1 in
            match compare_promise (senha_of req) (User.senha u) with
            | inl e => (internal_error e, w2)
            | inr true =>
                let w3 := arrives w2 in
                match down w3 with
                | Some e => (internal_error e, w3)
                | None => (login_ok (clock w2) u, snd (update_ultima_atualizacao (User.id u) w3))
                end
            | inr false => (bad_credentials, w2)
            end
        end
    end.
Proof.
  intros Hvalid. unfold login, try_catch. rewrite Hvalid.
  change (negb (isEmpty [])) with false. cbv iota.
  unfold bind at 1. rewrite pool_query_run. fold (email_of req) (senha_of req). cbv zeta.
  destruct (down (arrives w)) as [e |]; [reflexivity |].
  unfold select_active_by_email.
  destruct (active_by_email (email_of req) (arrives w)) as [| u rest]; [reflexivity |].
  unfold bind at 1. rewrite await_run.
  destruct (compare_promise (senha_of req) (User.senha u)) as [e | [|]]; try reflexivity.
  unfold bind at 1, now at 1. unfold bind at 1. cbn [negb]. cbv beta iota.
  rewrite pool_query_run.
  destruct (down (arrives (arrives (arrives w)))) as [e |]; reflexivity.
Qed.

Lemma rows_exist {A : Type} (f : A -> bool) (g : A -> Z) (l : list A) :
  (0 <? List.length (map g (filter f l)))%nat = existsb f l.
Proof.
  induction l as [| a l IH]; simpl; [reflexivity |].
  destruct (f a); simpl; [reflexivity | exact IH].
Qed.

(** [register] step by step: the two pre-checks after the first two
    suspensions, the hashing across the third, the insert after the
    fourth. *)
Lemma register_run (req : Request) (w : World) :
  register_errors req = [] ->
  register req w =
    let w1 := arrives w in
    match down w1 with
    | Some e => (internal_error e, w1)
    | None =>
        if email_taken (email_of req) w1 then
          (conflict "Este email já está cadastrado", w1)
        else
          let w2 := arrives w1 in
          match down w2 with
          | Some e => (internal_error e, w2)
          | None =>
              if cpf_taken (cpf_of req) w2 then
                (conflict "Este CPF já está cadastrado", w2)
              else
                let w3 := arrives w2 in
                match hash_promise (senha_of req) 12 (salt w2) with
                | inl e => (internal_error e, w3)
                | inr senhaHash =>
                    let w4 := arrives w3 in
                    match down w4 with
                    | Some e => (internal_error e, w4)
                    | None =>
                        match insert_usuario (nome_of req) (cpf_of req) (email_of req)
                                (telefone_of req) senhaHash w4 with
                        | (inl e, w5) => (internal_error e, w5)
                        | (inr [], w5) =>
                            (internal_error
                               (mkError None
                                  "Cannot read properties of undefined (reading 'id')"), w5)
                        | (inr (newUser :: _), w5) => (created (clock w5) newUser, w5)
                        end
                    end
                end
          end
    end.
Proof.
  intros Hvalid. unfold register, try_catch. rewrite Hvalid.
  change (negb (isEmpty [])) with false. cbv iota.
  fold (email_of req) (senha_of req) (nome_of req) (cpf_of req) (telefone_of req). cbv zeta.
  unfold bind at 1. rewrite pool_query_run.
  destruct (down (arrives w)) as [e |]; [reflexivity |].
  unfold select_id_by_email. rewrite rows_exist. fold (email_taken (email_of req) (arrives w)).
  destruct (email_taken (email_of req) (arrives w)); [reflexivity |].
  unfold bind at 1. rewrite pool_query_run.
  destruct (down (arrives (arrives w))) as [e |]; [reflexivity |].
  unfold select_id_by_cpf. rewrite rows_exist.
  fold (cpf_taken (cpf_of req) (arrives (arrives w))).
  destruct (cpf_taken (cpf_of req) (arrives (arrives w))); [reflexivity |].
  unfold bind at 1, draw_salt at 1. unfold bind at 1. rewrite await_run.
  destruct (hash_promise (senha_of req) 12 (salt (arrives (arrives w)))) as [e | senhaHash];
    [reflexivity |].
  unfold bind at 1. rewrite pool_query_run.
  destruct (down (arrives (arrives (arrives (arrives w))))) as [e |]; [reflexivity |].
  destruct (insert_usuario _ _ _ _ _ _) as [[e | [| newUser rows]] w5]; reflexivity.
Qed.

(** [verify] step by step. *)
Lemma verify_run (req : Request) (w : World) (token : string) :
  second_part (authorization req) = Some token -> token <> "" ->
  verify req w =
    match jwt_verify token JWT_SECRET (clock w) with
    | inl _ => (invalid_token, w)
    | inr decoded =>
        let w1 := arrives w in
        match down w1 with
        | Some _ => (invalid_token, w1)
        | None =>
            match active_by_id (Token.userId (Token.body decoded)) w1 with
            | [] => (inactive, w1)
            | u :: _ =>
                (mkResponse 200
                   (JObj [("valid", JBool true);
                          ("user", PublicUser.to_json (PublicUser.of_user u))]), w1)
            end
        end
    end.
Proof.
  intros Hpart Hne. unfold verify. fold (authorization req).
  assert (Htruthy : truthy (second_part (authorization req)) = true).
  { rewrite Hpart. simpl. apply negb_true_iff, String.eqb_neq. exact Hne. }
  destruct (bearer_second_part (authorization req)) as [-> Heq].
  rewrite Htruthy, (Heq Htruthy), Hpart. cbn [negb text]. cbv iota.
  unfold try_catch, jwt_verify_sync. unfold bind at 1. unfold bind at 1, now at 1.
  destruct (jwt_verify token JWT_SECRET (clock w)) as [[| m] | decoded]; try reflexivity.
  cbv beta iota delta [ret bind]. rewrite pool_query_run.
  destruct (down (arrives w)) as [e |]; [reflexivity |].
  unfold select_public_active_by_id.
  destruct (active_by_id _ (arrives w)) as [| u rest]; reflexivity.
Qed.

Lemma login_invalid (req : Request) (w : World) :
  login_errors req <> [] -> login req w = (invalid (login_errors req), w).
Proof.
  intros Herr. unfold login, try_catch.
  destruct (login_errors req); [congruence | reflexivity].
Qed.

Lemma register_invalid (req : Request) (w : World) :
  register_errors req <> [] -> register req w = (invalid (register_errors req), w).
Proof.
  intros Herr. unfold register, try_catch.
  destruct (register_errors req); [congruence | reflexivity].
Qed.


(** *** Tokens *)


(** *** Login *)




(** *** Token verification against the store *)

Lemma deactivated_not_found (id : Z) (w : World) :
  active_by_id id (set_ativo id false w) = [].
Proof.
  unfold active_by_id, set_ativo. simpl.
  induction (usuarios w) as [| u rows IH]; simpl; [reflexivity |].
  destruct (Z.eqb_spec (User.id u) id) as [Heq | Hneq]; simpl.
  - rewrite andb_false_r. exact IH.
  - apply Z.eqb_neq in Hneq. rewrite Hneq. exact IH.
Qed.

(** C5. When the token of a /verify request passes [jwt.verify], the
    endpoint still looks up the token's userId among the active users: with
    none found it answers 401 although the signature was good, and with
    one found it answers 200 with [valid: true] and that user's id, nome
    and email. So once a user's [ativo] is set to false, /verify fails for
    a token of theirs that still verifies. *)
Theorem verify_checks_active (req : Request) (w : World) (token : string)
    (decoded : Token.payload) :
  second_part (authorization req) = Some token -> token <> "" ->
  jwt_verify token JWT_SECRET (clock w) = inr decoded ->
  down (arrives w) = None ->
  (active_by_id (Token.userId (Token.body decoded)) (arrives w) = [] ->
     fst (verify req w) =
       mkResponse 401 (JObj [("error", JStr "Usuário não encontrado ou inativo")]))
  /\ (forall u others,
        active_by_id (Token.userId (Token.body decoded)) (arrives w) = u :: others ->
        fst (verify req w) =
          mkResponse 200
            (JObj [("valid", JBool true);
                   ("user", JObj [("id", JNum (User.id u)); ("nome", JStr (User.nome u));
                                  ("email", JStr (User.email u))])]))
  /\ (schedule w = [] ->
      fst (verify req (set_ativo (Token.userId (Token.body decoded)) false w)) =
        mkResponse 401 (JObj [("error", JStr "Usuário não encontrado ou inativo")])).
Proof.
  intros Hpart Hne Hverify Hup. repeat split.
  - intros Hnone. rewrite (verify_run _ _ _ Hpart Hne), Hverify. cbv zeta.
    rewrite Hup, Hnone. reflexivity.
  - intros u others Hsome. rewrite (verify_run _ _ _ Hpart Hne), Hverify. cbv zeta.
    rewrite Hup, Hsome. reflexivity.
  - intros Hquiet. rewrite (verify_run _ _ _ Hpart Hne).
    change (clock (set_ativo (Token.userId (Token.body decoded)) false w)) with (clock w).
    rewrite Hverify. cbv zeta.
    rewrite (arrives_quiet _ Hquiet) in Hup.
    rewrite (arrives_quiet (set_ativo _ false w)) by exact Hquiet.
    change (down (set_ativo (Token.userId (Token.body decoded)) false w)) with (down w).
    rewrite Hup, deactivated_not_found. reflexivity.
Qed.

(** *** Registration *)



(** When a row with the same email or cpf turns up between the
    pre-checks and the insert, the insert raises the uniqueness signal and
    the handler answers it as any other error. *)
Lemma register_insert_time_violation (req : Request) (w : World) (senha : string) :
  register_errors req = [] ->
  senha_of req = Some (SStr senha) ->
  down (arrives w) = None ->
  email_taken (email_of req) (arrives w) = false ->
  down (arrives (arrives w)) = None ->
  cpf_taken (cpf_of req) (arrives (arrives w)) = false ->
  down (arrives (arrives (arrives (arrives w)))) = None ->
  email_taken (email_of req) (arrives (arrives (arrives (arrives w)))) = true
  \/ cpf_taken (cpf_of req) (arrives (arrives (arrives (arrives w)))) = true ->
  exists constraint,
    fst (register req w) =
      mkResponse 500
        (JObj [("error", JStr "Erro interno do servidor");
               ("details", JStr (message (unique_violation constraint)))]).
Proof.
  intros Hvalid Hsenha Hup1 Hemail1 Hup2 Hcpf2 Hup4 Hrace.
  rewrite (register_run _ _ Hvalid). cbv zeta.
  rewrite Hup1, Hemail1, Hup2, Hcpf2, Hsenha. cbn [hash_promise].
  rewrite Hup4. unfold insert_usuario.
  destruct (email_taken (email_of req) (arrives (arrives (arrives (arrives w)))))
    eqn:Hemail4; [eexists; reflexivity |].
  destruct Hrace as [Hrace | Hrace]; [discriminate |].
  rewrite Hrace. eexists. reflexivity.
Qed.

(** The handler for drivers, by contrast, answers the same signal 409. *)
Lemma post_motoristas_conflict (req : Request) (w : World) (constraint : string) (w' : World) :
  js_truthy (assoc "nome" (fields req)) = true ->
  js_truthy (assoc "cnh" (fields req)) = true ->
  down (arrives w) = None ->
  insert_motorista (assoc "nome" (fields req)) (assoc "cnh" (fields req))
    (assoc "telefone" (fields req)) (assoc "email" (fields req)) (arrives w)
    = (inl (unique_violation constraint), w') ->
  post_motoristas req w =
    (mkResponse 409 (JObj [("error", JStr "CNH já cadastrada no sistema")]), w').
Proof.
  intros Hnome Hcnh Hup Hinsert. unfold post_motoristas, try_catch.
  rewrite Hnome, Hcnh. cbn [negb orb]. cbv iota.
  unfold bind at 1. rewrite pool_query_run, Hup, Hinsert. reflexivity.
Qed.

(** The row a registration adds. *)
Lemma register_alone (req : Request) (w : World) (senha : string) :
  register_errors req = [] -> schedule w = [] -> down w = None ->
  email_taken (email_of req) w = false -> cpf_taken (cpf_of req) w = false ->
  senha_of req = Some (SStr senha) ->
  let row := User.mk (usuarios_id_seq w) (nome_of req) (cpf_of req) (email_of req)
               (telefone_of req) (bcrypt_hash senha 12 (salt w)) true (clock w) in
  register req w =
    (created (clock w) (PublicUser.of_user row),
     mkWorld (usuarios w ++ [row])%list (usuarios_id_seq w + 1) (clock w) (salt w)
             None []).
Proof.
  intros Hvalid Hquiet Hup Hemail Hcpf Hsenha row.
  rewrite (register_run _ _ Hvalid). cbv zeta.
  rewrite !(arrives_quiet _ Hquiet), Hup, Hemail, Hcpf, Hsenha. cbn [hash_promise].
  unfold insert_usuario. rewrite Hemail, Hcpf. unfold with_usuarios. simpl.
  rewrite Hup, Hquiet. reflexivity.
Qed.

Lemma active_by_email_new (email : string) (rows : list User.t) (row : User.t) (w : World) :
  usuarios w = (rows ++ [row])%list ->
  existsb (fun u => String.eqb (User.email u) email) rows = false ->
  User.email row = email -> User.ativo row = true ->
  active_by_email email w = [row].
Proof.
  intros Htable Hfree Hemail Hactive. unfold active_by_email.
  rewrite Htable, filter_app. simpl. rewrite Hemail, String.eqb_refl, Hactive. simpl.
  clear Htable.
  induction rows as [| u rows IH]; simpl in *; [reflexivity |].
  apply orb_false_iff in Hfree as [Hu Hrows]. rewrite Hu. simpl. exact (IH Hrows).
Qed.

(** The chains of /register ask of the email and of the password what
    those of /login ask, and more. *)
Lemma register_shape_is_login_shape (req : Request) :
  register_errors req = [] -> login_errors req = [].
Proof.
  intros Hvalid. unfold register_errors in Hvalid.
  apply app_eq_nil in Hvalid as [_ Hvalid]. apply app_eq_nil in Hvalid as [_ Hvalid].
  apply app_eq_nil in Hvalid as [Hmail Hvalid]. apply app_eq_nil in Hvalid as [_ Hsenha].
  unfold login_errors. rewrite Hmail. simpl.
  unfold check in *.
  destruct (isLength 6 None (field_text (assoc "senha" (fields req)))) eqn:Hlen;
    [| discriminate].
  unfold isLength in *. rewrite andb_true_r in *.
  apply Nat.leb_le in Hlen.
  assert (Hone : (1 <=? characters (field_text (assoc "senha" (fields req))))%nat = true)
    by (apply Nat.leb_le; lia).
  rewrite Hone. reflexivity.
Qed.

(** X14. Registration and login fit together: who registered, alone, can
    log in with the same form, provided [bcrypt.compare] accepts the
    password against the hash [bcrypt.hash] made of it. *)
Lemma register_then_login (req : Request) (w : World) (senha : string) :
  register_errors req = [] -> schedule w = [] -> down w = None ->
  email_taken (email_of req) w = false -> cpf_taken (cpf_of req) w = false ->
  senha_of req = Some (SStr senha) ->
  bcrypt_compare senha (bcrypt_hash senha 12 (salt w)) = true ->
  status (fst (login req (snd (register req w)))) = 200%nat.
Proof.
  intros Hvalid Hquiet Hup Hemail Hcpf Hsenha Hcompare.
  assert (Hlogin := register_shape_is_login_shape _ Hvalid).
  rewrite (register_alone _ _ _ Hvalid Hquiet Hup Hemail Hcpf Hsenha). cbv zeta. cbn [snd].
  rewrite (login_run _ _ Hlogin). cbv zeta.
  rewrite !arrives_quiet by reflexivity. cbn [down].
  erewrite active_by_email_new; [| reflexivity | exact Hemail | reflexivity | reflexivity].
  cbn [User.senha]. rewrite Hsenha. cbn [compare_promise]. rewrite Hcompare. reflexivity.
Qed.

(** C8. The six-character minimum is a rule of registration alone, and
    it applies before anything else happens: a registration whose password
    has fewer than six characters is answered 400 with the world untouched,
    no suspension taken, so neither hashing nor a statement ran. A login
    needs its password only to have one character: with a valid email, a
    password of one character or more passes validation, and the answer is
    then settled by comparing it against the stored hash. Characters are
    those validator.js counts. *)
Theorem password_minimum_only_at_registration (req : Request) (w : World) :
  ((characters (field_text (senha_of req)) < 6)%nat ->
     register_errors req <> []
     /\ register req w =
          (mkResponse 400 (JObj [("error", JStr "Dados inválidos");
                                 ("details", JArr (register_errors req))]), w))
  /\ (forall senha,
        isEmail (field_text (assoc "email" (fields req))) = true ->
        senha_of req = Some (SStr senha) -> (1 <= characters senha)%nat ->
        login_errors req = []
        /\ (forall u others,
              schedule w = [] -> down w = None ->
              active_by_email (email_of req) w = u :: others ->
              fst (login req w) =
                if bcrypt_compare senha (User.senha u) then
                  mkResponse 200
                    (JObj [("message", JStr "Login realizado com sucesso");
                           ("token", JStr (generateToken (clock w) (User.id u) (User.email u)
                                                         (User.nome u)));
                           ("user", JObj [("id", JNum (User.id u));
                                          ("nome", JStr (User.nome u));
                                          ("email", JStr (User.email u))])])
                else mkResponse 401 (JObj [("error", JStr "Email ou senha incorretos")]))).
Proof.
  split.
  - intros Hshort.
    assert (Herr : register_errors req <> []).
    { unfold register_errors, check at 4. fold (senha_of req). unfold isLength.
      apply Nat.leb_gt in Hshort. rewrite Hshort. simpl.
      intros H. repeat (apply app_eq_nil in H as [_ H]). discriminate. }
    split; [exact Herr | apply register_invalid, Herr].
  - intros senha Hemail Hsenha Hlen.
    assert (Hvalid : login_errors req = []).
    { unfold login_errors, check. fold (senha_of req). rewrite Hemail, Hsenha.
      unfold isLength. cbn [field_text].
      apply Nat.leb_le in Hlen. rewrite Hlen. reflexivity. }
    split; [exact Hvalid |].
    intros u others Hquiet Hup Hrows. rewrite (login_run _ _ Hvalid). cbv zeta.
    rewrite !(arrives_quiet _ Hquiet), Hup, Hrows, Hsenha. cbn [compare_promise].
    destruct (bcrypt_compare senha (User.senha u)); reflexivity.
Qed.

(** *** What the handlers answer *)

Lemma verify_missing (req : Request) (w : World) :
  truthy (second_part (authorization req)) = false ->
  verify req w = (mkResponse 401 (JObj [("error", JStr "Token não fornecido")]), w).
Proof.
  intros H. unfold verify. fold (authorization req).
  destruct (bearer_second_part (authorization req)) as [-> _].
  rewrite H. reflexivity.
Qed.

Lemma verify_cases (req : Request) :
  truthy (second_part (authorization req)) = false
  \/ exists token, second_part (authorization req) = Some token /\ token <> "".
Proof.
  destruct (truthy (second_part (authorization req))) eqn:Htruthy; [right | left; reflexivity].
  destruct (truthy_text _ Htruthy) as [Heq Hne]. eauto.
Qed.

Lemma verify_writes_nothing (req : Request) (w : World) :
  snd (verify req w) = w \/ snd (verify req w) = arrives w.
Proof.
  destruct (verify_cases req) as [Hnone | (token & Hpart & Hne)].
  - rewrite (verify_missing _ _ Hnone). left. reflexivity.
  - rewrite (verify_run _ _ _ Hpart Hne). cbv zeta.
    destruct (jwt_verify token JWT_SECRET (clock w)); [left; reflexivity |].
    destruct (down (arrives w)); [right; reflexivity |].
    destruct (active_by_id _ (arrives w)); right; reflexivity.
Qed.

(** X1. /verify answers 200 or 401 and nothing else: a store that is away
    while the token is good is reported as an invalid token (401), not as
    an internal error. The endpoint writes nothing: the world it leaves is
    the one it found, or that one after its single suspension. *)
Theorem verify_answers (req : Request) (w : World) :
  (status (fst (verify req w)) = 200%nat \/ status (fst (verify req w)) = 401%nat)
  /\ (snd (verify req w) = w \/ snd (verify req w) = arrives w)
  /\ (forall token decoded e,
        second_part (authorization req) = Some token -> token <> "" ->
        jwt_verify token JWT_SECRET (clock w) = inr decoded ->
        down (arrives w) = Some e ->
        verify req w = (mkResponse 401 (JObj [("error", JStr "Token inválido")]), arrives w)).
Proof.
  split; [| split].
  - destruct (verify_cases req) as [Hnone | (token & Hpart & Hne)].
    + rewrite (verify_missing _ _ Hnone). right. reflexivity.
    + rewrite (verify_run _ _ _ Hpart Hne). cbv zeta.
      destruct (jwt_verify token JWT_SECRET (clock w)); [right; reflexivity |].
      destruct (down (arrives w)); [right; reflexivity |].
      destruct (active_by_id _ (arrives w)); [right | left]; reflexivity.
  - apply verify_writes_nothing.
  - intros token decoded e Hpart Hne Hverify Hdown.
    rewrite (verify_run _ _ _ Hpart Hne), Hverify. cbv zeta. rewrite Hdown. reflexivity.
Qed.

Lemma compare_rejects (v : option scalar) (h : Bcrypt.hash) :
  typeof v <> "string" ->
  compare_promise v h = inl (mkError None ("Illegal arguments: " ++ typeof v ++ ", string")).
Proof.
  destruct v as [[s | n | b |] |]; simpl; intros H; congruence.
Qed.

Lemma compare_settles (v : option scalar) (h : Bcrypt.hash) (e : Error) :
  compare_promise v h = inl e -> typeof v <> "string".
Proof.
  destruct v as [[s | n | b |] |]; simpl; intros H; congruence.
Qed.

(** X2. /login answers 200, 400, 401 or 500 and nothing else; 400 exactly
    when a validation chain failed, and 500 only when the store was away at
    the lookup or at the update of the stamp, or when the password is not a
    string. In that last case, a password that passed validation is
    answered 500, with the message of bcryptjs, as soon as an active user
    is found under the email. *)
Theorem login_answers (req : Request) (w : World) :
  In (status (fst (login req w))) [200; 400; 401; 500]%nat
  /\ (status (fst (login req w)) = 400%nat <-> login_errors req <> [])
  /\ (status (fst (login req w)) = 500%nat ->
      down (arrives w) <> None \/ down (arrives (arrives (arrives w))) <> None
      \/ typeof (senha_of req) <> "string")
  /\ (forall u others,
        login_errors req = [] -> down (arrives w) = None ->
        active_by_email (email_of req) (arrives w) = u :: others ->
        typeof (senha_of req) <> "string" ->
        fst (login req w) =
          mkResponse 500
            (JObj [("error", JStr "Erro interno do servidor");
                   ("details",
                    JStr ("Illegal arguments: " ++ typeof (senha_of req) ++ ", string"))])).
Proof.
  split; [| split; [| split]].
  - destruct (login_errors req) as [| e errors] eqn:Herr.
    + rewrite (login_run _ _ Herr). cbv zeta.
      destruct (down (arrives w)); [simpl; auto |].
      destruct (active_by_email (email_of req) (arrives w)) as [| u rest]; [simpl; auto |].
      destruct (compare_promise (senha_of req) (User.senha u)) as [e | [|]];
        [simpl; auto | | simpl; auto].
      destruct (down (arrives (arrives (arrives w)))); simpl; auto.
    + rewrite login_invalid by (rewrite Herr; discriminate). simpl. auto.
  - destruct (login_errors req) as [| e errors] eqn:Herr.
    + rewrite (login_run _ _ Herr). cbv zeta. split; [| congruence].
      destruct (down (arrives w)); [discriminate |].
      destruct (active_by_email (email_of req) (arrives w)) as [| u rest]; [discriminate |].
      destruct (compare_promise (senha_of req) (User.senha u)) as [e | [|]];
        [discriminate | | discriminate].
      destruct (down (arrives (arrives (arrives w)))); discriminate.
    + rewrite login_invalid by (rewrite Herr; discriminate). simpl.
      split; [discriminate | reflexivity].
  - destruct (login_errors req) as [| e errors] eqn:Herr.
    + rewrite (login_run _ _ Herr). cbv zeta.
      destruct (down (arrives w)) eqn:Hd1; [intros _; left; discriminate |].
      destruct (active_by_email (email_of req) (arrives w)) as [| u rest]; [discriminate |].
      destruct (compare_promise (senha_of req) (User.senha u)) as [e | [|]] eqn:Hcompare;
        [intros _; right; right; exact (compare_settles _ _ _ Hcompare) | | discriminate].
      destruct (down (arrives (arrives (arrives w)))) eqn:Hd3; [| discriminate].
      intros _. right. left. discriminate.
    + rewrite login_invalid by (rewrite Herr; discriminate). discriminate.
  - intros u others Hvalid Hup Hrows Hsenha.
    rewrite (login_run _ _ Hvalid). cbv zeta.
    rewrite Hup, Hrows, (compare_rejects _ _ Hsenha). reflexivity.
Qed.

(** X3. /register answers 201, 400, 409 or 500 and nothing else; 400
    exactly when a validation chain failed, and then, as for every answer
    but 201, no row was added by this request when it ran alone. *)
Theorem register_answers (req : Request) (w : World) :
  In (status (fst (register req w))) [201; 400; 409; 500]%nat
  /\ (status (fst (register req w)) = 400%nat <-> register_errors req <> [])
  /\ (schedule w = [] -> status (fst (register req w)) <> 201%nat ->
      snd (register req w) = w).
Proof.
  destruct (register_errors req) as [| e errors] eqn:Herr.
  - split; [| split].
    + rewrite (register_run _ _ Herr). cbv zeta.
      destruct (down (arrives w)); [simpl; auto |].
      destruct (email_taken (email_of req) (arrives w)); [simpl; auto |].
      destruct (down (arrives (arrives w))); [simpl; auto |].
      destruct (cpf_taken (cpf_of req) (arrives (arrives w))); [simpl; auto |].
      destruct (hash_promise _ _ _); [simpl; auto |].
      destruct (down (arrives (arrives (arrives (arrives w))))); [simpl; auto |].
      destruct (insert_usuario _ _ _ _ _ _) as [[err | [| newUser rows]] w5]; simpl; auto.
    + rewrite (register_run _ _ Herr). cbv zeta.
      split; [| congruence].
      destruct (down (arrives w)); [discriminate |].
      destruct (email_taken (email_of req) (arrives w)); [discriminate |].
      destruct (down (arrives (arrives w))); [discriminate |].
      destruct (cpf_taken (cpf_of req) (arrives (arrives w))); [discriminate |].
      destruct (hash_promise _ _ _); [discriminate |].
      destruct (down (arrives (arrives (arrives (arrives w))))); [discriminate |].
      destruct (insert_usuario _ _ _ _ _ _) as [[err | [| newUser rows]] w5]; discriminate.
    + intros Hquiet. rewrite (register_run _ _ Herr). cbv zeta.
      rewrite !(arrives_quiet _ Hquiet).
      destruct (down w); [reflexivity |].
      destruct (email_taken (email_of req) w) eqn:Hemail; [reflexivity |].
      destruct (cpf_taken (cpf_of req) w) eqn:Hcpf; [reflexivity |].
      destruct (hash_promise _ _ _); [reflexivity |].
      unfold insert_usuario. rewrite Hemail, Hcpf. simpl. congruence.
  - rewrite register_invalid by (rewrite Herr; discriminate). simpl.
    repeat split; auto; try discriminate.
Qed.

(** *** Uniqueness in the store *)

Lemma not_taken {A : Type} (f : User.t -> A) (eqb : A -> A -> bool) (a : A)
    (rows : list User.t) :
  (forall x y, eqb x y = true <-> x = y) ->
  existsb (fun u => eqb (f u) a) rows = false -> ~ In a (map f rows).
Proof.
  intros Heqb Hfree Hin. apply in_map_iff in Hin as (u & Hu & Hin).
  assert (Htaken : existsb (fun u => eqb (f u) a) rows = true).
  { apply existsb_exists. exists u. split; [exact Hin | apply Heqb, Hu]. }
  congruence.
Qed.

Lemma NoDup_snoc {A : Type} (l : list A) (a : A) :
  NoDup l -> ~ In a l -> NoDup (l ++ [a]).
Proof.
  intros Hl Ha. induction l as [| x l IH]; simpl.
  - constructor; [intros [] | constructor].
  - inversion Hl as [| ? ? Hx Hl']; subst. constructor.
    + intros Hin. apply in_app_or in Hin as [Hin | [-> | []]]; [exact (Hx Hin) |].
      apply Ha. left. reflexivity.
    + apply IH; [exact Hl' |]. intros Hin. apply Ha. right. exact Hin.
Qed.

Lemma insert_consistent (nome cpf email : string) (telefone : option string)
    (senha : Bcrypt.hash) (w : World) :
  consistent w -> consistent (snd (insert_usuario nome cpf email telefone senha w)).
Proof.
  intros (Hemail & Hcpf & Hid & Hseq). unfold insert_usuario.
  assert (Hbump : Forall (fun u => (User.id u < usuarios_id_seq w + 1)%Z) (usuarios w)).
  { eapply Forall_impl; [| exact Hseq]. simpl. intros u Hu. lia. }
  destruct (email_taken email w) eqn:Htaken; [repeat split; assumption |].
  destruct (cpf_taken cpf w) eqn:Htaken'; [repeat split; assumption |].
  unfold consistent. simpl. rewrite !map_app. simpl. repeat split.
  - apply NoDup_snoc; [exact Hemail |].
    apply (not_taken User.email String.eqb); [apply String.eqb_eq | exact Htaken].
  - apply NoDup_snoc; [exact Hcpf |].
    apply (not_taken User.cpf String.eqb); [apply String.eqb_eq | exact Htaken'].
  - apply NoDup_snoc; [exact Hid |].
    intros Hin. apply in_map_iff in Hin as (u & Hu & Hin).
    rewrite Forall_forall in Hseq. specialize (Hseq u Hin). lia.
  - apply Forall_app. split; [exact Hbump |]. constructor; [simpl; lia | constructor].
Qed.

Lemma map_rows_consistent (f : User.t -> User.t) (w : World) :
  (forall u, User.email (f u) = User.email u /\ User.cpf (f u) = User.cpf u
             /\ User.id (f u) = User.id u) ->
  consistent w -> consistent (with_usuarios w (map f (usuarios w))).
Proof.
  intros Hf (Hemail & Hcpf & Hid & Hseq). unfold consistent. simpl.
  rewrite !map_map.
  rewrite (map_ext (fun u => User.email (f u)) User.email) by (intros u; apply Hf).
  rewrite (map_ext (fun u => User.cpf (f u)) User.cpf) by (intros u; apply Hf).
  rewrite (map_ext (fun u => User.id (f u)) User.id) by (intros u; apply Hf).
  repeat split; try assumption.
  apply Forall_map. eapply Forall_impl; [| exact Hseq].
  simpl. intros u Hu. destruct (Hf u) as (_ & _ & ->). exact Hu.
Qed.

Lemma event_consistent (w : World) (e : Event) :
  consistent w -> consistent (apply_event w e).
Proof.
  intros Hw. destruct e as [nome cpf email telefone senha | id b | dt | err |]; simpl.
  - apply insert_consistent, Hw.
  - apply map_rows_consistent; [| exact Hw].
    intros u. destruct (Z.eqb (User.id u) id); repeat split.
  - exact Hw.
  - exact Hw.
  - exact Hw.
Qed.

Lemma arrives_consistent (w : World) : consistent w -> consistent (arrives w).
Proof.
  unfold arrives, yield. destruct (schedule w) as [| events later]; [trivial |].
  intros Hw. simpl.
  assert (Hstart : consistent (with_schedule w later)) by exact Hw.
  revert Hstart. generalize (with_schedule w later).
  induction events as [| e events IH]; intros w0 Hw0; simpl; [exact Hw0 |].
  apply IH, event_consistent, Hw0.
Qed.

(** X4. No handler of routes/auth.js breaks the uniqueness the store
    keeps: when emails, cpfs and ids each name one row at most and the
    sequence is ahead of every id, the same holds after a login, a
    registration or a verification, whatever other sessions commit
    meanwhile. *)
Theorem handlers_keep_uniqueness (req : Request) (w : World) :
  consistent w ->
  consistent (snd (login req w)) /\ consistent (snd (register req w))
  /\ consistent (snd (verify req w)).
Proof.
  intros Hw.
  assert (H1 := arrives_consistent _ Hw).
  assert (H2 := arrives_consistent _ H1).
  assert (H3 := arrives_consistent _ H2).
  assert (H4 := arrives_consistent _ H3).
  split; [| split].
  - destruct (login_errors req) as [| e errors] eqn:Herr.
    + rewrite (login_run _ _ Herr). cbv zeta.
      destruct (down (arrives w)); [exact H1 |].
      destruct (active_by_email (email_of req) (arrives w)) as [| u rest]; [exact H1 |].
      destruct (compare_promise (senha_of req) (User.senha u)) as [err | [|]];
        [exact H2 | | exact H2].
      destruct (down (arrives (arrives (arrives w)))); [exact H3 |].
      simpl. apply map_rows_consistent; [| exact H3].
      intros r. destruct (Z.eqb (User.id r) (User.id u)); repeat split.
    + rewrite login_invalid by (rewrite Herr; discriminate). exact Hw.
  - destruct (register_errors req) as [| e errors] eqn:Herr.
    + rewrite (register_run _ _ Herr). cbv zeta.
      destruct (down (arrives w)); [exact H1 |].
      destruct (email_taken (email_of req) (arrives w)); [exact H1 |].
      destruct (down (arrives (arrives w))); [exact H2 |].
      destruct (cpf_taken (cpf_of req) (arrives (arrives w))); [exact H2 |].
      destruct (hash_promise _ _ _) as [err | senhaHash]; [exact H3 |].
      destruct (down (arrives (arrives (arrives (arrives w))))); [exact H4 |].
      assert (Hins := insert_consistent (nome_of req) (cpf_of req) (email_of req)
                        (telefone_of req) senhaHash _ H4).
      destruct (insert_usuario _ _ _ _ _ _) as [[err | [| newUser rows]] w5]; exact Hins.
    + rewrite register_invalid by (rewrite Herr; discriminate). exact Hw.
  - destruct (verify_writes_nothing req w) as [-> | ->]; assumption.
Qed.

(** *** Deactivation *)

Lemma deactivated_not_listed (email : string) (i : Z) (rows : list User.t) :
  (forall u, In u rows -> User.email u = email -> User.id u = i) ->
  filter (fun u => String.eqb (User.email u) email && User.ativo u)
         (map (fun u => if Z.eqb (User.id u) i then User.set_ativo false u else u) rows)
  = [].
Proof.
  induction rows as [| u rows IH]; intros Hown; simpl; [reflexivity |].
  rewrite IH by (intros r Hr; apply Hown; right; exact Hr).
  destruct (Z.eqb_spec (User.id u) i) as [Hid | Hid]; simpl.
  - rewrite andb_false_r. reflexivity.
  - destruct (String.eqb_spec (User.email u) email) as [Hemail | Hemail]; [| reflexivity].
    exfalso. apply Hid, Hown; [left; reflexivity | exact Hemail].
Qed.

(** X5. Once the rows under an email are deactivated, a login with that
    email is answered 401 like an unknown one, whatever the password, and
    leaves the store as it was. *)
Theorem deactivated_cannot_login (req : Request) (w : World) (i : Z) :
  login_errors req = [] -> schedule w = [] -> down w = None ->
  (forall u, In u (usuarios w) -> User.email u = email_of req -> User.id u = i) ->
  login req (set_ativo i false w) =
    (mkResponse 401 (JObj [("error", JStr "Email ou senha incorretos")]),
     set_ativo i false w).
Proof.
  intros Hvalid Hquiet Hup Hown.
  rewrite (login_run _ _ Hvalid). cbv zeta.
  rewrite (arrives_quiet (set_ativo i false w)) by exact Hquiet.
  change (down (set_ativo i false w)) with (down w). rewrite Hup.
  unfold active_by_email, set_ativo at 1. simpl usuarios.
  rewrite (deactivated_not_listed _ _ _ Hown). reflexivity.
Qed.

(** *** Sanitizers run after the validators *)

Lemma ltrim_all_space (n : nat) (s : string) :
  (String.length s <= n)%nat -> all_space s = true -> ltrim s = "".
Proof.
  revert s. induction n as [| n IH]; intros s Hlen Hall.
  - destruct s; [reflexivity | simpl in Hlen; lia].
  - destruct s as [| c1 rest1]; [reflexivity |].
    cbn [all_space ltrim] in *.
    destruct (is_space c1); [apply IH; [simpl in Hlen; lia | exact Hall] |].
    destruct (nat_of_ascii c1 <? 128)%nat; [discriminate |].
    destruct rest1 as [| c2 rest2]; [discriminate |].
    destruct (is_space2 c1 c2); [apply IH; [simpl in Hlen; lia | exact Hall] |].
    destruct rest2 as [| c3 rest3]; [discriminate |].
    destruct (is_space3 c1 c2 c3); [| discriminate].
    apply IH; [simpl in Hlen; lia | exact Hall].
Qed.

Lemma trim_blank (s : string) : all_space s = true -> trim s = "".
Proof.
  intros Hall. unfold trim. rewrite (ltrim_all_space (String.length s)); trivial.
Qed.

(** X7. The length rule on the name is applied to the name as sent, and
    the name is trimmed afterwards: a registration whose name is two to a
    hundred whitespace characters is accepted, and the row it adds has the
    empty name. *)
Theorem blank_name_registers (req : Request) (w : World) (senha : string) :
  register_errors req = [] -> schedule w = [] -> down w = None ->
  email_taken (email_of req) w = false -> cpf_taken (cpf_of req) w = false ->
  senha_of req = Some (SStr senha) ->
  all_space (field_text (assoc "nome" (fields req))) = true ->
  status (fst (register req w)) = 201%nat
  /\ exists row,
       usuarios (snd (register req w)) = (usuarios w ++ [row])%list
       /\ User.nome row = "".
Proof.
  intros Hvalid Hquiet Hup Hemail Hcpf Hsenha Hblank.
  rewrite (register_alone _ _ _ Hvalid Hquiet Hup Hemail Hcpf Hsenha). cbv zeta.
  split; [reflexivity |].
  eexists. split; [reflexivity |].
  simpl. unfold nome_of. apply trim_blank, Hblank.
Qed.

(** *** Tokens handed out and brought back *)

Lemma bearer_header (token : string) :
  contains space token = false ->
  second_part (Some ("Bearer " ++ token)) = Some token.
Proof.
  intros Hspace.
  change ("Bearer " ++ token) with ("Bearer" ++ String space token).
  unfold second_part. rewrite split_at, (split_without _ _ Hspace) by reflexivity.
  reflexivity.
Qed.

Lemma generated_token_presented (req : Request) (t : Z) (id : Z) (email nome : string) :
  jwt_compact ->
  authorization req = Some ("Bearer " ++ generateToken t id email nome) ->
  second_part (authorization req) = Some (generateToken t id email nome)
  /\ generateToken t id email nome <> "".
Proof.
  intros Hcompact Hheader.
  destruct (Hcompact (Token.mkClaims id email nome) JWT_SECRET expiresIn t) as [Hspace Hne].
  split; [| exact Hne]. rewrite Hheader. apply bearer_header, Hspace.
Qed.

Lemma fresh_row_by_id (rows : list User.t) (row : User.t) (w : World) :
  usuarios w = (rows ++ [row])%list ->
  Forall (fun u => (User.id u < User.id row)%Z) rows ->
  User.ativo row = true ->
  active_by_id (User.id row) w = [row].
Proof.
  intros Htable Hbelow Hactive. unfold active_by_id.
  rewrite Htable, filter_app. simpl. rewrite Z.eqb_refl, Hactive. simpl.
  clear Htable.
  induction rows as [| u rows IH]; simpl; [reflexivity |].
  inversion Hbelow as [| ? ? Hu Hrows]; subst.
  assert (Hne : Z.eqb (User.id u) (User.id row) = false) by (apply Z.eqb_neq; lia).
  rewrite Hne. simpl. exact (IH Hrows).
Qed.

(** X8. Registration and /verify fit together: when a registration runs
    alone against a store whose sequence is ahead of every id, the token in
    its 201 answer, sent to /verify as a Bearer header, is answered 200
    with [valid: true] and the id, name and email of the new user. *)
Theorem registered_token_verifies (req req' : Request) (w : World) (senha : string) :
  jwt_round_trip -> jwt_compact ->
  register_errors req = [] -> schedule w = [] -> down w = None ->
  email_taken (email_of req) w = false -> cpf_taken (cpf_of req) w = false ->
  senha_of req = Some (SStr senha) ->
  Forall (fun u => (User.id u < usuarios_id_seq w)%Z) (usuarios w) ->
  authorization req' = Some ("Bearer " ++ Reference.token_of (fst (register req w))) ->
  fst (verify req' (snd (register req w))) =
    mkResponse 200
      (JObj [("valid", JBool true);
             ("user", JObj [("id", JNum (usuarios_id_seq w)); ("nome", JStr (nome_of req));
                            ("email", JStr (email_of req))])]).
Proof.
  intros Hrt Hcompact Hvalid Hquiet Hup Hemail Hcpf Hsenha Hseq.
  rewrite (register_alone _ _ _ Hvalid Hquiet Hup Hemail Hcpf Hsenha). cbv zeta.
  cbn [fst snd]. unfold Reference.token_of, created. simpl field.
  cbn [PublicUser.id PublicUser.email PublicUser.nome PublicUser.of_user
       User.id User.email User.nome].
  intros Hheader.
  destruct (generated_token_presented _ _ _ _ _ Hcompact Hheader) as [Hpart Hne].
  rewrite (verify_run _ _ _ Hpart Hne). cbn [clock].
  unfold generateToken at 1. rewrite Hrt. unfold expiresIn.
  destruct (Z.ltb_spec (clock w) (clock w + 24 * 60 * 60)) as [_ | Hge]; [| lia].
  cbv zeta. rewrite arrives_quiet by reflexivity. cbn [down Token.body Token.userId].
  erewrite (fresh_row_by_id (usuarios w)
              (User.mk (usuarios_id_seq w) (nome_of req) (cpf_of req) (email_of req)
                       (telefone_of req) (bcrypt_hash senha 12 (salt w)) true (clock w)));
    [reflexivity | reflexivity | exact Hseq | reflexivity].
Qed.


(** *** server.js: drivers and trucks *)

(** X10. POST /api/motoristas: without a name or a licence number it
    answers 400 and sends nothing to the store; otherwise it sends the
    insert once, and answers 201 with the row, 409 with a fixed message when
    the store signals a uniqueness violation, and 500 with the store's
    message on any other error. *)
Theorem post_motoristas_outcomes (req : Request) (w : World) :
  (js_truthy (assoc "nome" (fields req)) = false
   \/ js_truthy (assoc "cnh" (fields req)) = false ->
   post_motoristas req w =
     (mkResponse 400 (JObj [("error", JStr "Nome e CNH são obrigatórios")]), w))
  /\ (js_truthy (assoc "nome" (fields req)) = true ->
      js_truthy (assoc "cnh" (fields req)) = true ->
      down (arrives w) = None ->
      forall w',
        let insert := insert_motorista (assoc "nome" (fields req)) (assoc "cnh" (fields req))
                        (assoc "telefone" (fields req)) (assoc "email" (fields req)) in
        (forall rows, insert (arrives w) = (inr rows, w') ->
                      post_motoristas req w = (mkResponse 201 (hd JNull rows), w'))
        /\ (forall err, insert (arrives w) = (inl err, w') ->
                        code err = Some "23505" ->
                        post_motoristas req w =
                          (mkResponse 409 (JObj [("error", JStr "CNH já cadastrada no sistema")]),
                           w'))
        /\ (forall err, insert (arrives w) = (inl err, w') ->
                        code err <> Some "23505" ->
                        post_motoristas req w =
                          (mkResponse 500 (JObj [("error", JStr "Erro interno do servidor");
                                                 ("details", JStr (message err))]), w'))).
Proof.
  split.
  - intros Hmissing. unfold post_motoristas, try_catch.
    destruct Hmissing as [-> | ->]; [reflexivity |].
    rewrite orb_true_r. reflexivity.
  - intros Hnome Hcnh Hup w' insert.
    assert (Hrun : post_motoristas req w =
              match insert (arrives w) with
              | (inl err, w0) =>
                  (if match code err with
                      | Some c => String.eqb c "23505"
                      | None => false
                      end
                   then mkResponse 409 (JObj [("error", JStr "CNH já cadastrada no sistema")])
                   else internal_error err, w0)
              | (inr rows, w0) => (mkResponse 201 (hd JNull rows), w0)
              end).
    { unfold post_motoristas, try_catch. rewrite Hnome, Hcnh. cbn [negb orb]. cbv iota.
      unfold bind at 1. rewrite pool_query_run, Hup. subst insert.
      destruct (insert_motorista _ _ _ _ (arrives w)) as [[err | rows] w0]; reflexivity. }
    rewrite Hrun. split; [| split].
    + intros rows Hins. rewrite Hins. reflexivity.
    + intros err Hins Hcode. rewrite Hins, Hcode. reflexivity.
    + intros err Hins Hcode. rewrite Hins. destruct (code err) as [c |]; [| reflexivity].
      destruct (String.eqb_spec c "23505") as [-> | _]; [congruence | reflexivity].
Qed.

(** X11. POST /api/caminhoes: without a plate or a model it answers 400
    and sends nothing to the store; otherwise it sends the insert once, and
    answers 201 with the row, 409 with a fixed message when the store
    signals a uniqueness violation, and 500 with the store's message on any
    other error. *)
Theorem post_caminhoes_outcomes (req : Request) (w : World) :
  (js_truthy (assoc "placa" (fields req)) = false
   \/ js_truthy (assoc "modelo" (fields req)) = false ->
   post_caminhoes req w =
     (mkResponse 400 (JObj [("error", JStr "Placa e modelo são obrigatórios")]), w))
  /\ (js_truthy (assoc "placa" (fields req)) = true ->
      js_truthy (assoc "modelo" (fields req)) = true ->
      down (arrives w) = None ->
      forall w',
        let insert := insert_caminhao (assoc "placa" (fields req))
                        (assoc "modelo" (fields req))
                        (assoc "marca" (fields req)) (assoc "ano" (fields req))
                        (assoc "capacidade" (fields req)) in
        (forall rows, insert (arrives w) = (inr rows, w') ->
                      post_caminhoes req w = (mkResponse 201 (hd JNull rows), w'))
        /\ (forall err, insert (arrives w) = (inl err, w') ->
                        code err = Some "23505" ->
                        post_caminhoes req w =
                          (mkResponse 409 (JObj [("error", JStr "Placa já cadastrada no sistema")]),
                           w'))
        /\ (forall err, insert (arrives w) = (inl err, w') ->
                        code err <> Some "23505" ->
                        post_caminhoes req w =
                          (mkResponse 500 (JObj [("error", JStr "Erro interno do servidor");
                                                 ("details", JStr (message err))]), w'))).
Proof.
  split.
  - intros Hmissing. unfold post_caminhoes, try_catch.
    destruct Hmissing as [-> | ->]; [reflexivity |].
    rewrite orb_true_r. reflexivity.
  - intros Hplaca Hmodelo Hup w' insert.
    assert (Hrun : post_caminhoes req w =
              match insert (arrives w) with
              | (inl err, w0) =>
                  (if match code err with
                      | Some c => String.eqb c "23505"
                      | None => false
                      end
                   then mkResponse 409 (JObj [("error", JStr "Placa já cadastrada no sistema")])
                   else internal_error err, w0)
              | (inr rows, w0) => (mkResponse 201 (hd JNull rows), w0)
              end).
    { unfold post_caminhoes, try_catch. rewrite Hplaca, Hmodelo. cbn [negb orb]. cbv iota.
      unfold bind at 1. rewrite pool_query_run, Hup. subst insert.
      destruct (insert_caminhao _ _ _ _ _ (arrives w)) as [[err | rows] w0]; reflexivity. }
    rewrite Hrun. split; [| split].
    + intros rows Hins. rewrite Hins. reflexivity.
    + intros err Hins Hcode. rewrite Hins, Hcode. reflexivity.
    + intros err Hins Hcode. rewrite Hins. destruct (code err) as [c |]; [| reflexivity].
      destruct (String.eqb_spec c "23505") as [-> | _]; [congruence | reflexivity].
Qed.

(** *** server.js: the statement PATCH builds *)

Lemma placeholders_skip (a b : string) :
  contains "$" a = false -> placeholders (a ++ b) = placeholders b.
Proof.
  induction a as [| c a IH]; simpl; [reflexivity |].
  intros H. apply orb_false_iff in H as [Hc Ha]. rewrite Hc. exact (IH Ha).
Qed.

Lemma uint_digits (d : Decimal.uint) (rest : string) :
  stops rest = true ->
  digits (NilEmpty.string_of_uint d ++ rest) = NilEmpty.string_of_uint d
  /\ contains "$" (NilEmpty.string_of_uint d) = false.
Proof.
  intros Hrest. induction d as [| d [IH IH'] | d [IH IH'] | d [IH IH'] | d [IH IH']
                                | d [IH IH'] | d [IH IH'] | d [IH IH'] | d [IH IH']
                                | d [IH IH'] | d [IH IH']];
    cbn [NilEmpty.string_of_uint append digits contains];
    try (change (digit "0") with true); try (change (digit "1") with true);
    try (change (digit "2") with true); try (change (digit "3") with true);
    try (change (digit "4") with true); try (change (digit "5") with true);
    try (change (digit "6") with true); try (change (digit "7") with true);
    try (change (digit "8") with true); try (change (digit "9") with true);
    cbv iota; rewrite ?IH, ?IH'; try (split; reflexivity).
  split; [| reflexivity].
  destruct rest as [| c rest]; [reflexivity |].
  simpl in Hrest. simpl. apply negb_true_iff in Hrest. rewrite Hrest. reflexivity.
Qed.

Lemma number_not_empty (n : nat) : number n <> "".
Proof.
  unfold number. intros H.
  assert (Hparse := NilEmpty.usu (Nat.to_uint n)). rewrite H in Hparse. simpl in Hparse.
  assert (Hnil : Nat.to_uint n = Decimal.Nil) by congruence.
  assert (Hnorm := Unsigned.to_of (Nat.to_uint n)).
  rewrite Unsigned.of_to, Hnil in Hnorm. discriminate.
Qed.

(** A dollar sign, a number and a text that does not go on with a digit:
    one placeholder, of that number. *)
Lemma placeholder_read (n : nat) (rest : string) :
  stops rest = true ->
  placeholders (String "$" (number n ++ rest)) = n :: placeholders rest.
Proof.
  intros Hrest. cbn [placeholders]. change (Ascii.eqb "$" "$") with true. cbv iota.
  unfold number. destruct (uint_digits (Nat.to_uint n) rest Hrest) as [-> Hclean].
  rewrite NilEmpty.usu, Unsigned.of_to, (placeholders_skip _ _ Hclean).
  destruct (NilEmpty.string_of_uint (Nat.to_uint n)) eqn:Hn; [| reflexivity].
  exfalso. exact (number_not_empty n Hn).
Qed.

Lemma concat_more (sep x y : string) (l : list string) :
  String.concat sep (x :: y :: l) = x ++ sep ++ String.concat sep (y :: l).
Proof. reflexivity. Qed.

Lemma set_items_placeholders (keys : list string) (index : nat) (tail : string) :
  Forall (fun key => contains "$" key = false) keys -> stops tail = true ->
  placeholders
    (String.concat ", "
       (map_indexed (fun key i => key ++ " = $" ++ number (i + 1)) keys index) ++ tail)
  = (seq (index + 1) (List.length keys) ++ placeholders tail)%list.
Proof.
  intros Hkeys Htail. revert index.
  induction Hkeys as [| key keys Hkey Hkeys IH]; intros index; [reflexivity |].
  cbn [map_indexed].
  assert (Hitem : forall rest, stops rest = true ->
            placeholders (key ++ " = $" ++ number (index + 1) ++ rest)
            = (index + 1)%nat :: placeholders rest).
  { intros rest Hrest. rewrite (placeholders_skip _ _ Hkey).
    change (" = $" ++ number (index + 1) ++ rest)
      with (String " " (String "=" (String " " (String "$" (number (index + 1) ++ rest))))).
    cbn [placeholders]. change (Ascii.eqb " " "$") with false.
    change (Ascii.eqb "=" "$") with false. cbv iota.
    apply placeholder_read, Hrest. }
  destruct keys as [| key' keys].
  - cbn [String.concat map_indexed]. rewrite !app_assoc, (Hitem _ Htail). reflexivity.
  - cbn [map_indexed]. rewrite concat_more, !app_assoc.
    rewrite Hitem by reflexivity.
    match goal with
    | |- context [placeholders (", " ++ ?a)] =>
        change (placeholders (", " ++ a)) with (placeholders a)
    end.
    specialize (IH (S index)). cbn [map_indexed] in IH. rewrite IH. reflexivity.
Qed.

Lemma word_clean (s : string) : word s = true -> contains "$" s = false.
Proof.
  induction s as [| c s IH]; simpl; [reflexivity |].
  intros H. apply andb_true_iff in H as [Hc Hs]. rewrite (IH Hs), orb_false_r.
  destruct (Ascii.eqb_spec c "$") as [-> | _]; [discriminate | reflexivity].
Qed.

Lemma identifier_clean (s : string) : identifier s = true -> contains "$" s = false.
Proof.
  destruct s as [| c s]; [discriminate |]. intros H. apply word_clean.
  simpl in *. apply andb_true_iff in H as [Hc Hs]. rewrite Hc, Hs. reflexivity.
Qed.

(** X12. The statement PATCH /api/tarefas/:id builds agrees with the
    values it passes, as long as the keys of the body are plain column
    names: the placeholders of the text are then $1, $2, ... in order, one
    for each key and a last one for the id, exactly as many as there are
    values, and the id is the last value. *)
Theorem patch_statement_arity (updates : list (string * scalar)) (id : string) :
  Forall (fun key => identifier key = true) (map fst updates) ->
  placeholders (patch_query (map fst updates))
  = seq 1 (List.length (map snd updates ++ [SStr id])%list)
  /\ last (map snd updates ++ [SStr id])%list SNull = SStr id.
Proof.
  intros Hnames. split; [| apply last_last].
  assert (Hkeys : Forall (fun key => contains "$" key = false) (map fst updates)).
  { eapply Forall_impl; [| exact Hnames]. exact identifier_clean. }
  unfold patch_query, setClause.
  rewrite (placeholders_skip "UPDATE tarefas SET ") by reflexivity.
  rewrite (set_items_placeholders _ 0 _ Hkeys) by reflexivity.
  change (" WHERE id = $" ++ ?a)
    with (" WHERE id = " ++ String "$" a).
  rewrite (placeholders_skip " WHERE id = ") by reflexivity.
  rewrite placeholder_read by reflexivity.
  change (placeholders " RETURNING *") with (@nil nat).
  rewrite length_app, !length_map. cbn [List.length].
  rewrite seq_app. cbn [seq Nat.add]. rewrite Nat.add_comm. reflexivity.
Qed.

(** X13. PATCH /api/tarefas/:id: an empty body is answered 400 with
    nothing sent to the store; otherwise the one statement sent is the
    built text with the body's values followed by the id, and the answer is
    404 when no row comes back, the first row otherwise, and 500 with the
    store's message when the statement raises. *)
Theorem patch_tarefas_outcomes (id : string) (req : Request) (w : World) :
  (fields req = [] ->
   patch_tarefas id req w =
     (mkResponse 400 (JObj [("error", JStr "Nenhum campo para atualizar")]), w))
  /\ (fields req <> [] -> down (arrives w) = None ->
      patch_tarefas id req w =
        match run_sql (patch_query (map fst (fields req)))
                      (map snd (fields req) ++ [SStr id]) (arrives w) with
        | (inl err, w') =>
            (mkResponse 500 (JObj [("error", JStr "Erro interno do servidor");
                                   ("details", JStr (message err))]), w')
        | (inr [], w') =>
            (mkResponse 404 (JObj [("error", JStr "Tarefa não encontrada")]), w')
        | (inr (row :: _), w') => (mkResponse 200 row, w')
        end).
Proof.
  split.
  - intros Hempty. unfold patch_tarefas, try_catch. rewrite Hempty. reflexivity.
  - intros Hsome Hup. unfold patch_tarefas, try_catch.
    destruct (fields req) as [| update updates]; [congruence |].
    cbn [map List.length Nat.eqb]. cbv zeta.
    unfold bind at 1. rewrite pool_query_run, Hup.
    destruct (run_sql _ _ (arrives w)) as [[err | [| row rows]] w']; reflexivity.
Qed.

(** *** What a login reads, and a second registration *)

(** X16. A login reads the normalised email and the password of its body
    and nothing else of the request: two requests of valid shape that agree
    on these are answered alike and leave the same world, whatever their
    paths, headers and other fields. *)
Theorem login_reads_only_credentials (req1 req2 : Request) (w : World) :
  login_errors req1 = [] -> login_errors req2 = [] ->
  email_of req1 = email_of req2 -> senha_of req1 = senha_of req2 ->
  login req1 w = login req2 w.
Proof.
  intros Hv1 Hv2 Hemail Hsenha.
  rewrite (login_run _ _ Hv1), (login_run _ _ Hv2), Hemail, Hsenha. reflexivity.
Qed.

(** X17. After a registration that ran alone and was answered 201, a
    second one of valid shape with the same normalised email is answered
    409 naming the email, and one with another, unused email but the same
    cpf is answered 409 naming the CPF; neither adds a row. *)
Theorem second_registration_conflicts (req1 req2 : Request) (w : World) (senha : string) :
  register_errors req1 = [] -> register_errors req2 = [] ->
  schedule w = [] -> down w = None ->
  email_taken (email_of req1) w = false -> cpf_taken (cpf_of req1) w = false ->
  senha_of req1 = Some (SStr senha) ->
  status (fst (register req1 w)) = 201%nat
  /\ (email_of req2 = email_of req1 ->
      register req2 (snd (register req1 w)) =
        (mkResponse 409 (JObj [("error", JStr "Este email já está cadastrado")]),
         snd (register req1 w)))
  /\ (email_taken (email_of req2) (snd (register req1 w)) = false ->
      cpf_of req2 = cpf_of req1 ->
      register req2 (snd (register req1 w)) =
        (mkResponse 409 (JObj [("error", JStr "Este CPF já está cadastrado")]),
         snd (register req1 w))).
Proof.
  intros Hv1 Hv2 Hquiet Hup Hemail Hcpf Hsenha.
  rewrite (register_alone _ _ _ Hv1 Hquiet Hup Hemail Hcpf Hsenha). cbv zeta. cbn [fst snd].
  split; [reflexivity |].
  split.
  - intros Hsame. rewrite (register_run _ _ Hv2). cbv zeta.
    rewrite !arrives_quiet by reflexivity. cbn [down].
    unfold email_taken at 1. cbn [usuarios]. rewrite existsb_app. cbn [existsb User.email].
    rewrite Hsame, String.eqb_refl, orb_true_r. reflexivity.
  - intros Hfree Hsame. rewrite (register_run _ _ Hv2). cbv zeta.
    rewrite !arrives_quiet by reflexivity. cbn [down]. rewrite Hfree.
    unfold cpf_taken at 1. cbn [usuarios]. rewrite existsb_app. cbn [existsb User.cpf].
    rewrite Hsame, String.eqb_refl, orb_true_r. reflexivity.
Qed.

(** *** server.js: the statistics *)

Example parseInt_samples :
  parseInt "42" = Some 42%Z /\ parseInt "  -17abc" = Some (-17)%Z
  /\ parseInt "0x1F" = Some 31%Z /\ parseInt "" = None /\ parseInt "abc" = None
  /\ parseInt "+0" = Some 0%Z.
Proof. repeat split; reflexivity. Qed.

Lemma parse_digits_uint (d : Decimal.uint) (acc : nat) :
  parse_digits 10 (NilEmpty.string_of_uint d) acc = Nat.of_uint_acc d acc.
Proof.
  revert acc.
  induction d as [| d IH | d IH | d IH | d IH | d IH | d IH | d IH | d IH | d IH | d IH];
    intros acc; cbn [NilEmpty.string_of_uint parse_digits Nat.of_uint_acc];
    [reflexivity | ..];
    match goal with
    | |- context [digit_value 10 ?c] =>
        let v := eval vm_compute in (digit_value 10 c) in
        change (digit_value 10 c) with v
    end;
    cbv iota; rewrite IH, Nat.tail_mul_spec; f_equal; lia.
Qed.

(** Nothing is trimmed off a string that starts with a digit. *)
Lemma ltrim_digit (c : ascii) (rest : string) :
  digit c = true -> ltrim (String c rest) = String c rest.
Proof.
  intros Hdigit. unfold digit in Hdigit. apply andb_true_iff in Hdigit as [Hlow Hhigh].
  apply Nat.leb_le in Hlow, Hhigh.
  cbn [ltrim]. unfold is_space. cbv zeta.
  replace (nat_of_ascii c =? 32)%nat with false by (symmetry; apply Nat.eqb_neq; lia).
  replace (nat_of_ascii c <=? 13)%nat with false by (symmetry; apply Nat.leb_gt; lia).
  rewrite andb_false_r. cbn [orb].
  replace (nat_of_ascii c <? 128)%nat with true by (symmetry; apply Nat.ltb_lt; lia).
  reflexivity.
Qed.

(** Printing a number and reading it back gives the number. *)
Lemma parseInt_number (n : nat) : parseInt (number n) = Some (Z.of_nat n).
Proof.
  unfold number.
  assert (Hd : Nat.to_uint n <> Decimal.Nil).
  { intros Hnil. apply (number_not_empty n). unfold number. rewrite Hnil. reflexivity. }
  assert (Hvalue := parse_digits_uint (Nat.to_uint n) 0).
  fold (Nat.of_uint (Nat.to_uint n)) in Hvalue. rewrite Unsigned.of_to in Hvalue.
  revert Hvalue.
  destruct (Nat.to_uint n) as [| d | d | d | d | d | d | d | d | d | d]; [congruence | ..];
    cbn [NilEmpty.string_of_uint]; intros Hvalue;
    try (unfold parseInt; rewrite ltrim_digit by reflexivity; cbv iota beta;
         match goal with
         | |- context [starts_with_digit 10 (String ?c ?r)] =>
             change (starts_with_digit 10 (String c r)) with true
         end; cbv iota; rewrite Hvalue; destruct (Z.of_nat n); reflexivity).
  unfold parseInt. rewrite ltrim_digit by reflexivity. cbv iota beta.
  destruct d as [| d | d | d | d | d | d | d | d | d | d];
    cbn [NilEmpty.string_of_uint] in *;
    match goal with
    | |- context [starts_with_digit 10 (String ?c ?r)] =>
        change (starts_with_digit 10 (String c r)) with true
    end; cbv iota; rewrite Hvalue; destruct (Z.of_nat n); reflexivity.
Qed.

(** X18. The statistics routes answer the count the store reports: when
    the row's [total] is the decimal text of a number below 2^53, as COUNT
    gives it, the answer is 200 with that number as [total], the store left
    to the statement. *)
Theorem totals_read_the_count (n : nat) (req : Request) (w w' : World) :
  (Z.of_nat n < 2 ^ 53)%Z -> down (arrives w) = None ->
  (count_motoristas (arrives w) = (inr [number n], w') ->
   total_motoristas req w = (mkResponse 200 (JObj [("total", JNum (Z.of_nat n))]), w'))
  /\ (count_caminhoes (arrives w) = (inr [number n], w') ->
      total_caminhoes req w = (mkResponse 200 (JObj [("total", JNum (Z.of_nat n))]), w')).
Proof.
  intros _ Hup. split; intros Hcount.
  - unfold total_motoristas, try_catch. unfold bind at 1.
    rewrite pool_query_run, Hup, Hcount. cbv iota beta.
    unfold ret, res_json. rewrite parseInt_number. reflexivity.
  - unfold total_caminhoes, try_catch. unfold bind at 1.
    rewrite pool_query_run, Hup, Hcount. cbv iota beta.
    unfold ret, res_json. rewrite parseInt_number. reflexivity.
Qed.

End Auth.


(** ** The reference libraries meet the assumed guarantees *)

Lemma contains_app (c : ascii) (a b : string) :
  contains c (a ++ b) = contains c a || contains c b.
Proof.
  induction a as [| x a IH]; simpl; [reflexivity |].
  rewrite IH. apply orb_assoc.
Qed.

Lemma is_one_bit (b : bool) : Reference.is_one (Reference.bit b) = b.
Proof. destruct b; reflexivity. Qed.

Lemma bit_differs (b : bool) (c : ascii) :
  Ascii.eqb "0" c = false -> Ascii.eqb "1" c = false ->
  Ascii.eqb (Reference.bit b) c = false.
Proof. destruct b; simpl; auto. Qed.

Lemma dec_enc_pos (p : positive) : Reference.dec_pos (Reference.enc_pos p) = p.
Proof.
  induction p as [p IH | p IH |]; simpl; [rewrite IH .. |]; reflexivity.
Qed.

Lemma dec_enc_Z (z : Z) : Reference.dec_Z (Reference.enc_Z z) = z.
Proof.
  destruct z; simpl; [| rewrite dec_enc_pos ..]; reflexivity.
Qed.

Lemma dec_enc_string (s : string) : Reference.dec_string (Reference.enc_string s) = s.
Proof.
  induction s as [| [b0 b1 b2 b3 b4 b5 b6 b7] s IH]; [reflexivity |].
  cbn [Reference.enc_string Reference.dec_string].
  rewrite !is_one_bit, IH. reflexivity.
Qed.

Lemma enc_pos_clean (c : ascii) (p : positive) :
  Ascii.eqb "0" c = false -> Ascii.eqb "1" c = false ->
  contains c (Reference.enc_pos p) = false.
Proof.
  intros H0 H1.
  induction p as [p IH | p IH |]; cbn [Reference.enc_pos contains];
    [rewrite H1 | rewrite H0 |]; auto.
Qed.

Lemma enc_string_clean (c : ascii) (s : string) :
  Ascii.eqb "0" c = false -> Ascii.eqb "1" c = false ->
  contains c (Reference.enc_string s) = false.
Proof.
  intros H0 H1. induction s as [| [b0 b1 b2 b3 b4 b5 b6 b7] s IH]; [reflexivity |].
  cbn [Reference.enc_string contains].
  rewrite !(bit_differs _ c H0 H1), IH. reflexivity.
Qed.

Lemma enc_Z_clean (c : ascii) (z : Z) :
  c = Reference.dot \/ c = space -> contains c (Reference.enc_Z z) = false.
Proof.
  intros Hc.
  assert (H : Ascii.eqb "0" c = false /\ Ascii.eqb "1" c = false
              /\ Ascii.eqb "z" c = false /\ Ascii.eqb "p" c = false
              /\ Ascii.eqb "n" c = false)
    by (destruct Hc as [-> | ->]; repeat split; reflexivity).
  destruct H as (H0 & H1 & Hz & Hp & Hn).
  destruct z; cbn [Reference.enc_Z contains];
    rewrite ?Hz, ?Hp, ?Hn, ?enc_pos_clean; auto.
Qed.

Lemma reference_split (a b c d e f : string) :
  contains Reference.dot a = false -> contains Reference.dot b = false ->
  contains Reference.dot c = false -> contains Reference.dot d = false ->
  contains Reference.dot e = false -> contains Reference.dot f = false ->
  split Reference.dot
    (a ++ String Reference.dot (b ++ String Reference.dot (c ++ String Reference.dot
       (d ++ String Reference.dot (e ++ String Reference.dot f)))))
  = [a; b; c; d; e; f].
Proof.
  intros Ha Hb Hc Hd He Hf.
  rewrite !split_at, split_without by assumption. reflexivity.
Qed.

Lemma reference_round_trip : jwt_round_trip Reference.jwt_sign Reference.jwt_verify.
Proof.
  intros [uid email nome] secret ttl t0 t.
  unfold Reference.jwt_verify, Reference.jwt_sign. cbn [Token.userId Token.email Token.nome].
  rewrite reference_split
    by (first [apply enc_Z_clean; left; reflexivity | apply enc_string_clean; reflexivity]).
  rewrite !dec_enc_string, !dec_enc_Z, String.eqb_refl. reflexivity.
Qed.

Lemma reference_compact : jwt_compact Reference.jwt_sign.
Proof.
  intros c secret ttl t0. unfold Reference.jwt_sign. split.
  - rewrite !contains_app. cbn [contains].
    rewrite !contains_app. cbn [contains].
    rewrite ?contains_app. cbn [contains].
    rewrite ?contains_app. cbn [contains].
    rewrite ?contains_app. cbn [contains].
    rewrite !enc_Z_clean by (right; reflexivity).
    rewrite !enc_string_clean by reflexivity. reflexivity.
  - destruct (Token.userId c); discriminate.
Qed.

(** ** The handlers on the reference libraries *)

#[local] Abbreviation ref_gate := (authenticateToken None Reference.jwt_verify).
#[local] Abbreviation ref_app := (app None Reference.jwt_verify Reference.routes).
#[local] Abbreviation ref_verify := (verify None Reference.jwt_verify).
#[local] Abbreviation ref_login :=
  (login None Reference.jwt_sign Reference.bcrypt_compare Reference.isEmail
         Reference.normalizeEmail Reference.validation_error).
#[local] Abbreviation ref_register :=
  (register None Reference.jwt_sign Reference.bcrypt_hash Reference.isEmail
            Reference.normalizeEmail Reference.validation_error).

Example split_header : split space "Bearer abc def" = ["Bearer"; "abc"; "def"].
Proof. reflexivity. Qed.

Example header_ending_in_space :
  second_part (Some "Bearer ") = Some ""
  /\ ref_gate 1000 (Reference.get "/api/tarefas" (Some "Bearer "))
     = Responded (mkResponse 401 (JObj [("error", JStr "Token de acesso requerido")])).
Proof. split; reflexivity. Qed.

Example cpf_shape :
  matches cpf_pattern "123.456.789-01" = true /\ matches cpf_pattern "12345678901" = false.
Proof. split; reflexivity. Qed.

Example telefone_shape :
  matches_telefone "(11) 91234-5678" = true /\ matches_telefone "(11) 1234-5678" = true
  /\ matches_telefone "(11) 123-4567" = false.
Proof. repeat split; reflexivity. Qed.

Example trim_name : trim "  Ana Silva " = "Ana Silva".
Proof. reflexivity. Qed.

(** A no-break space, U+00A0, is trimmed like a space. *)
Example trim_no_break_space :
  let nbsp := String (ascii_of_nat 194) (String (ascii_of_nat 160) EmptyString) in
  trim (nbsp ++ "Ana" ++ nbsp) = "Ana".
Proof. reflexivity. Qed.

Example characters_not_bytes :
  String.length "ééé" = 6%nat /\ characters "ééé" = 3%nat
  /\ isLength 6 None "ééé" = false /\ isLength 6 None "segredo" = true
  /\ characters ("abcde" ++ Reference.selector16) = 5%nat.
Proof. repeat split; reflexivity. Qed.

Example ana_logs_in :
  status (fst (ref_login Reference.login_right Reference.world)) = 200%nat
  /\ usuarios (snd (ref_login Reference.login_right Reference.world))
     = [User.touch 1000 Reference.ana].
Proof. split; vm_compute; reflexivity. Qed.

Example register_then_verify :
  let registered := ref_register Reference.register_ana Reference.empty in
  status (fst registered) = 201%nat
  /\ keys (Reference.user_of (fst registered)) = ["id"; "nome"; "email"]
  /\ fst (ref_verify
            (Reference.get "/api/auth/verify"
               (Some ("Bearer " ++ Reference.token_of (fst registered))))
            (snd registered))
     = mkResponse 200
         (JObj [("valid", JBool true);
                ("user", JObj [("id", JNum 1); ("nome", JStr "Ana Silva");
                               ("email", JStr "ana@x.com")])]).
Proof. repeat split; vm_compute; reflexivity. Qed.

(** Ana's token, a day old, on a task route: 403. *)
Lemma gate_outcomes_witness :
  gated (path Reference.tarefas_req) = true
  /\ ref_app Reference.tarefas_req Reference.world_late =
       (mkResponse 403 (JObj [("error", JStr "Token inválido ou expirado")]),
        Reference.world_late).
Proof.
  split; [reflexivity |].
  destruct (gate_outcomes None Reference.jwt_verify Reference.routes
              Reference.tarefas_req Reference.world_late eq_refl) as (_ & H & _).
  destruct (H Reference.ana_token eq_refl ltac:(vm_compute; discriminate)) as [H403 _].
  exact (H403 TokenExpiredError eq_refl).
Defined.

(** Ana's token under the scheme "Basic" is accepted; sent bare, it is
    not seen. *)
Lemma gate_ignores_scheme_witness :
  ref_gate 1000 Reference.basic_req
    = Next (set_user Reference.basic_req Reference.ana_payload)
  /\ ref_gate 1000 Reference.bare_req
     = Responded (mkResponse 401 (JObj [("error", JStr "Token de acesso requerido")])).
Proof.
  split.
  - destruct (gate_ignores_scheme None Reference.jwt_verify 1000 Reference.basic_req
                ("Basic " ++ Reference.ana_token) eq_refl) as [H _].
    rewrite (H "Basic" Reference.ana_token eq_refl eq_refl ltac:(vm_compute; discriminate)).
    vm_compute. reflexivity.
  - destruct (gate_ignores_scheme None Reference.jwt_verify 1000 Reference.bare_req
                Reference.ana_token eq_refl) as [_ H].
    apply H. vm_compute. reflexivity.
Defined.





(** Ana's token verifies; /verify answers 200 while she is active and 401
    once she is not. *)
Lemma verify_checks_active_witness :
  Reference.jwt_verify Reference.ana_token (JWT_SECRET None) 1000 = inr Reference.ana_payload
  /\ fst (ref_verify Reference.verify_req Reference.world)
     = mkResponse 200
         (JObj [("valid", JBool true);
                ("user", JObj [("id", JNum 1); ("nome", JStr "Ana Silva");
                               ("email", JStr "ana@x.com")])])
  /\ fst (ref_verify Reference.verify_req (set_ativo 1 false Reference.world))
     = mkResponse 401 (JObj [("error", JStr "Usuário não encontrado ou inativo")]).
Proof.
  split; [vm_compute; reflexivity |].
  destruct (verify_checks_active None Reference.jwt_verify Reference.verify_req
              Reference.world Reference.ana_token Reference.ana_payload
              eq_refl ltac:(vm_compute; discriminate) ltac:(vm_compute; reflexivity) eq_refl)
    as (_ & Hactive & Hinactive).
  split.
  - exact (Hactive Reference.ana [] eq_refl).
  - exact (Hinactive eq_refl).
Defined.



(** C8, as the spec states it, fails for one kind of non-empty password:
    a variation selector is a character validator.js does not count, and a
    login whose password is made of nothing else is answered 400. *)
Lemma login_refuses_selector_alone :
  String.eqb Reference.selector16 "" = false
  /\ characters Reference.selector16 = 0%nat
  /\ Reference.isEmail "ana@x.com" = true
  /\ fst (ref_login Reference.login_selector Reference.world)
     = mkResponse 400
         (JObj [("error", JStr "Dados inválidos");
                ("details",
                 JArr [Reference.validation_error "senha"
                         (Some (SStr Reference.selector16))])]).
Proof.
  repeat split; vm_compute; reflexivity.
Qed.

(** A password of five accented letters, ten bytes long, is refused at
    registration; a three-character password is compared at login. *)
Lemma password_minimum_only_at_registration_witness :
  status (fst (ref_register Reference.register_accents Reference.world)) = 400%nat
  /\ snd (ref_register Reference.register_accents Reference.world) = Reference.world
  /\ fst (ref_login Reference.login_wrong Reference.world)
     = mkResponse 401 (JObj [("error", JStr "Email ou senha incorretos")]).
Proof.
  destruct (password_minimum_only_at_registration None Reference.jwt_sign
              Reference.bcrypt_hash Reference.bcrypt_compare Reference.isEmail
              Reference.normalizeEmail Reference.validation_error
              Reference.register_accents Reference.world) as [Hregister _].
  destruct (password_minimum_only_at_registration None Reference.jwt_sign
              Reference.bcrypt_hash Reference.bcrypt_compare Reference.isEmail
              Reference.normalizeEmail Reference.validation_error
              Reference.login_wrong Reference.world) as [_ Hlogin].
  destruct (Hregister ltac:(vm_compute; lia)) as [_ Hrefused].
  destruct (Hlogin "abc" eq_refl eq_refl ltac:(vm_compute; lia)) as [_ Hcompared].
  split; [rewrite Hrefused; reflexivity |].
  split; [rewrite Hrefused; reflexivity |].
  rewrite (Hcompared Reference.ana [] eq_refl eq_refl eq_refl). reflexivity.
Defined.

(** C3. The registration form sent twice: the first request passes both
    pre-checks, the second one's row is committed while the first is
    hashing, and the first request's insert meets the uniqueness signal. The
    handler answers 500 with the store's message, where a conflict (409) is
    due. *)
Lemma register_race_is_internal_error :
  fst (ref_register Reference.register_bia Reference.racing)
  = mkResponse 500
      (JObj [("error", JStr "Erro interno do servidor");
             ("details",
              JStr "duplicate key value violates unique constraint usuarios_email_key")])
  /\ email_taken "bia@x.com" Reference.racing = false
  /\ cpf_taken "111.222.333-44" Reference.racing = false.
Proof.
  repeat split; vm_compute; reflexivity.
Qed.

(** X15. The answer to a registration does not depend on what
    [bcrypt.hash] returns: the hash goes into the row and nowhere else. *)
Lemma register_answer_ignores_hash
    (env : option string) (sign : Token.claims -> string -> Z -> Z -> string)
    (hash hash' : string -> nat -> string -> Bcrypt.hash)
    (isEmail : string -> bool) (normalizeEmail : string -> string)
    (validation_error : string -> option scalar -> json) (req : Request) (w : World) :
  fst (register env sign hash isEmail normalizeEmail validation_error req w)
  = fst (register env sign hash' isEmail normalizeEmail validation_error req w).
Proof.
  destruct (register_errors isEmail validation_error req) as [| e errors] eqn:Herr.
  - rewrite !(register_run _ _ _ _ _ _ _ _ Herr). cbv zeta.
    destruct (down (arrives w)); [reflexivity |].
    destruct (email_taken _ (arrives w)); [reflexivity |].
    destruct (down (arrives (arrives w))); [reflexivity |].
    destruct (cpf_taken _ (arrives (arrives w))); [reflexivity |].
    destruct (senha_of req) as [[senha | n | b |] |]; try reflexivity.
    cbn [hash_promise].
    destruct (down (arrives (arrives (arrives (arrives w))))); [reflexivity |].
    unfold insert_usuario.
    destruct (email_taken _ _); [reflexivity |].
    destruct (cpf_taken _ _); reflexivity.
  - rewrite !register_invalid by (rewrite Herr; discriminate). reflexivity.
Qed.

(** ** The password verifier *)

Lemma cycle_long (n : nat) (whole rest : string) :
  (n <= String.length rest)%nat -> PasswordVerifier.cycle n whole rest = substring 0 n rest.
Proof.
  revert rest. induction n as [| n IH]; intros rest Hlen.
  - destruct rest; reflexivity.
  - destruct rest as [| c rest]; [simpl in Hlen; lia |].
    simpl. rewrite IH by (simpl in Hlen; lia). reflexivity.
Qed.

Lemma substring_short (n : nat) (s : string) :
  (String.length s <= n)%nat -> substring 0 n s = s.
Proof.
  revert s. induction n as [| n IH]; intros s Hlen.
  - destruct s; [reflexivity | simpl in Hlen; lia].
  - destruct s as [| c s]; [reflexivity |]. simpl. rewrite IH by (simpl in Hlen; lia).
    reflexivity.
Qed.

Lemma substring_app (n : nat) (a b : string) :
  (n <= String.length a)%nat -> substring 0 n (a ++ b) = substring 0 n a.
Proof.
  revert a. induction n as [| n IH]; intros a Hlen.
  - destruct a; destruct b; reflexivity.
  - destruct a as [| c a]; [simpl in Hlen; lia |]. simpl.
    rewrite IH by (simpl in Hlen; lia). reflexivity.
Qed.

Lemma substring_length (n : nat) (s : string) :
  (n <= String.length s)%nat -> String.length (substring 0 n s) = n.
Proof.
  revert s. induction n as [| n IH]; intros s Hlen.
  - destruct s; reflexivity.
  - destruct s as [| c s]; [simpl in Hlen; lia |]. simpl.
    rewrite IH by (simpl in Hlen; lia). reflexivity.
Qed.


Lemma length_append (a b : string) :
  String.length (a ++ b) = (String.length a + String.length b)%nat.
Proof.
  induction a as [| c a IH]; simpl; [reflexivity | now rewrite IH].
Qed.

(** The key of a password is that of its first 72 bytes. *)
Lemma key_prefix (p : string) :
  PasswordVerifier.key p = PasswordVerifier.key (substring 0 72 p).
Proof.
  destruct (Nat.le_gt_cases 72 (String.length p)) as [Hlong | Hshort].
  - assert (Hcut := substring_length 72 p Hlong).
    unfold PasswordVerifier.key. cbv zeta.
    rewrite !cycle_long by (rewrite length_append; lia).
    rewrite !substring_app by lia.
    rewrite (substring_short 72 (substring 0 72 p)) by lia. reflexivity.
  - rewrite substring_short by lia. reflexivity.
Qed.

(** Up to its first zero byte, the key of a password without zero bytes
    is the first 72 bytes of the password. *)
Lemma cycle_until_zero (n : nat) (whole rest tail : string) :
  plain rest = true ->
  until_zero (PasswordVerifier.cycle n whole (rest ++ String PasswordVerifier.zero tail))
  = substring 0 n rest.
Proof.
  revert rest. induction n as [| n IH]; intros rest Hplain.
  - destruct rest; reflexivity.
  - destruct rest as [| c rest].
    + reflexivity.
    + unfold plain in Hplain. cbn [contains] in Hplain.
      apply negb_true_iff, orb_false_iff in Hplain as [Hc Hrest].
      cbn [append PasswordVerifier.cycle until_zero substring]. rewrite Hc.
      rewrite IH by (unfold plain; rewrite Hrest; reflexivity). reflexivity.
Qed.

Lemma key_until_zero (p : string) :
  plain p = true -> until_zero (PasswordVerifier.key p) = substring 0 72 p.
Proof.
  intros Hplain. unfold PasswordVerifier.key. cbv zeta.
  apply cycle_until_zero, Hplain.
Qed.

Lemma key_decides (p p' : string) :
  plain p = true -> plain p' = true ->
  PasswordVerifier.key p' = PasswordVerifier.key p <-> substring 0 72 p' = substring 0 72 p.
Proof.
  intros Hp Hp'. split; intros H.
  - rewrite <- (key_until_zero p Hp), <- (key_until_zero p' Hp'), H. reflexivity.
  - rewrite (key_prefix p), (key_prefix p'), H. reflexivity.
Qed.

(** The closing zero byte is part of what is repeated: a password with a
    zero byte inside can have the key of a shorter one. *)
Example zero_byte_repeats :
  PasswordVerifier.key ("a" ++ String PasswordVerifier.zero "a") = PasswordVerifier.key "a".
Proof. reflexivity. Qed.

(** C7. What holds of the round trip, the one-way function being free of
    collisions: a password always verifies against its own hash, whatever
    the salt; and of two passwords without zero bytes, the second verifies
    against the hash of the first exactly when the two agree on their first
    72 bytes, so that it is refused whenever it differs from the first
    within them. *)
Theorem password_round_trip (digest : nat -> string -> string -> string)
    (p p' salt : string) :
  (forall cost s k k', digest cost s k = digest cost s k' -> k = k') ->
  PasswordVerifier.verify digest p (PasswordVerifier.hash digest p 12 salt) = true
  /\ (plain p = true -> plain p' = true ->
      PasswordVerifier.verify digest p' (PasswordVerifier.hash digest p 12 salt)
      = String.eqb (substring 0 72 p') (substring 0 72 p)).
Proof.
  intros Hinjective. unfold PasswordVerifier.verify, PasswordVerifier.hash. simpl. split.
  - apply String.eqb_refl.
  - intros Hp Hp'. destruct (key_decides p p' Hp Hp') as [Hto Hfrom].
    destruct (String.eqb_spec (substring 0 72 p') (substring 0 72 p)) as [Hsame | Hother].
    + rewrite (Hfrom Hsame). apply String.eqb_refl.
    + apply String.eqb_neq. intros Hdigest. apply Hother, Hto.
      exact (Hinjective _ _ _ _ Hdigest).
Qed.

(** The reference digest is free of collisions. *)
Lemma reference_digest_injective (cost : nat) (s k k' : string) :
  Reference.digest cost s k = Reference.digest cost s k' -> k = k'.
Proof.
  unfold Reference.digest. induction s as [| c s IH]; simpl; intros H.
  - congruence.
  - apply IH. congruence.
Qed.

(** Two short passwords, and two of 73 bytes that part at the last one. *)
Lemma password_round_trip_witness :
  PasswordVerifier.verify Reference.digest "segredo1"
    (PasswordVerifier.hash Reference.digest "segredo1" 12 "s1") = true
  /\ PasswordVerifier.verify Reference.digest "segredo2"
       (PasswordVerifier.hash Reference.digest "segredo1" 12 "s1") = false
  /\ PasswordVerifier.verify Reference.digest Reference.long_c
       (PasswordVerifier.hash Reference.digest Reference.long_b 12 "s1") = true.
Proof.
  destruct (password_round_trip Reference.digest "segredo1" "segredo2" "s1"
              reference_digest_injective) as [Hsame Hother].
  destruct (password_round_trip Reference.digest Reference.long_b Reference.long_c "s1"
              reference_digest_injective) as [_ Hlong].
  split; [exact Hsame |].
  split; [rewrite Hother; reflexivity | rewrite Hlong; reflexivity].
Defined.

(** C7, as the spec states it, fails: bcrypt reads no more than 72 bytes
    of a password, and a password verifies against the hash of another one
    that shares its first 72 bytes. *)
Lemma verify_accepts_other_password :
  String.eqb Reference.long_c Reference.long_b = false
  /\ PasswordVerifier.verify Reference.digest Reference.long_c
       (PasswordVerifier.hash Reference.digest Reference.long_b 12 "s1") = true.
Proof.
  split; vm_compute; reflexivity.
Qed.

(** The same through the handlers: Bia registers with one password and
    logs in with the other. *)
Lemma login_accepts_other_password :
  register_errors Reference.isEmail Reference.validation_error Reference.register_long = []
  /\ status (fst (ref_register Reference.register_long Reference.world)) = 201%nat
  /\ status (fst (ref_login Reference.login_long
                    (snd (ref_register Reference.register_long Reference.world)))) = 200%nat.
Proof.
  repeat split; vm_compute; reflexivity.
Qed.

(** ** Further runs on the reference libraries *)

#[local] Abbreviation ref_post_motoristas := (post_motoristas Reference.insert_motorista).
#[local] Abbreviation ref_post_caminhoes := (post_caminhoes Reference.insert_caminhao).
#[local] Abbreviation ref_patch_tarefas := (patch_tarefas Reference.run_sql).

Example number_prints_decimal : number 0 = "0" /\ number 12 = "12" /\ number 305 = "305".
Proof. repeat split; reflexivity. Qed.

Example patch_query_two_keys :
  patch_query ["status"; "peso"]
  = "UPDATE tarefas SET status = $1, peso = $2 WHERE id = $3 RETURNING *".
Proof. reflexivity. Qed.

(** A key is copied into the statement as it was sent, whatever it
    holds. *)
Example patch_query_copies_key :
  identifier "a = 1 --" = false
  /\ patch_query ["a = 1 --"] = "UPDATE tarefas SET a = 1 -- = $1 WHERE id = $2 RETURNING *".
Proof. split; reflexivity. Qed.

(** Ana's email with the number 123456 as password: 500, though the store
    is up. *)
Lemma login_answers_witness :
  down (arrives Reference.world) = None
  /\ fst (ref_login Reference.login_number_known Reference.world)
     = mkResponse 500 (JObj [("error", JStr "Erro interno do servidor");
                             ("details", JStr "Illegal arguments: number, string")]).
Proof.
  split; [reflexivity |].
  destruct (login_answers None Reference.jwt_sign Reference.bcrypt_compare
              Reference.isEmail Reference.normalizeEmail Reference.validation_error
              Reference.login_number_known Reference.world) as (_ & _ & _ & Hnumber).
  rewrite (Hnumber Reference.ana [] eq_refl eq_refl eq_refl ltac:(discriminate)).
  reflexivity.
Defined.

(** Ana's good token while the database is away: 401, invalid token. *)
Lemma verify_answers_witness :
  down (arrives Reference.away) <> None
  /\ fst (ref_verify Reference.verify_req Reference.away)
     = mkResponse 401 (JObj [("error", JStr "Token inválido")]).
Proof.
  split; [discriminate |].
  destruct (verify_answers None Reference.jwt_verify Reference.verify_req Reference.away)
    as (_ & _ & Houtage).
  rewrite (Houtage Reference.ana_token Reference.ana_payload
             (mkError (Some "ECONNREFUSED") "connect ECONNREFUSED")
             eq_refl ltac:(vm_compute; discriminate) ltac:(vm_compute; reflexivity) eq_refl).
  reflexivity.
Defined.

Lemma reference_world_consistent : consistent Reference.world.
Proof.
  unfold consistent. simpl. repeat split.
  - repeat constructor. intros [].
  - repeat constructor. intros [].
  - repeat constructor. intros [].
  - repeat constructor.
Qed.

Lemma handlers_keep_uniqueness_witness :
  consistent Reference.world
  /\ consistent (snd (ref_register Reference.register_bia Reference.world))
  /\ consistent (snd (ref_register Reference.register_bia Reference.racing)).
Proof.
  split; [exact reference_world_consistent |].
  split.
  - apply (handlers_keep_uniqueness None Reference.jwt_sign Reference.jwt_verify
             Reference.bcrypt_hash Reference.bcrypt_compare Reference.isEmail
             Reference.normalizeEmail Reference.validation_error
             Reference.register_bia Reference.world reference_world_consistent).
  - apply (handlers_keep_uniqueness None Reference.jwt_sign Reference.jwt_verify
             Reference.bcrypt_hash Reference.bcrypt_compare Reference.isEmail
             Reference.normalizeEmail Reference.validation_error
             Reference.register_bia Reference.racing reference_world_consistent).
Defined.

(** Ana, deactivated, is refused with her right password. *)
Lemma deactivated_cannot_login_witness :
  status (fst (ref_login Reference.login_right Reference.world)) = 200%nat
  /\ fst (ref_login Reference.login_right (set_ativo 1 false Reference.world))
     = mkResponse 401 (JObj [("error", JStr "Email ou senha incorretos")]).
Proof.
  split; [vm_compute; reflexivity |].
  rewrite (deactivated_cannot_login None Reference.jwt_sign Reference.bcrypt_compare
             Reference.isEmail Reference.normalizeEmail Reference.validation_error
             Reference.login_right Reference.world 1 eq_refl eq_refl eq_refl).
  - reflexivity.
  - intros u [<- | []] _. reflexivity.
Defined.

Lemma blank_name_registers_witness :
  all_space "  " = true
  /\ status (fst (ref_register Reference.register_blank Reference.world)) = 201%nat
  /\ exists row,
       usuarios (snd (ref_register Reference.register_blank Reference.world))
       = [Reference.ana; row]
       /\ User.nome row = "".
Proof.
  split; [reflexivity |].
  exact (blank_name_registers None Reference.jwt_sign Reference.bcrypt_hash
           Reference.isEmail Reference.normalizeEmail Reference.validation_error
           Reference.register_blank Reference.world "segredo2"
           eq_refl eq_refl eq_refl eq_refl eq_refl eq_refl eq_refl).
Defined.

Lemma registered_token_verifies_witness :
  fst (ref_verify
         (Reference.get "/api/auth/verify"
            (Some ("Bearer " ++ Reference.token_of
                                  (fst (ref_register Reference.register_ana Reference.empty)))))
         (snd (ref_register Reference.register_ana Reference.empty)))
  = mkResponse 200
      (JObj [("valid", JBool true);
             ("user", JObj [("id", JNum 1); ("nome", JStr "Ana Silva");
                            ("email", JStr "ana@x.com")])]).
Proof.
  apply (registered_token_verifies None Reference.jwt_sign Reference.jwt_verify
           Reference.bcrypt_hash Reference.isEmail Reference.normalizeEmail
           Reference.validation_error Reference.register_ana
           (Reference.get "/api/auth/verify"
              (Some ("Bearer " ++ Reference.token_of
                                    (fst (ref_register Reference.register_ana Reference.empty)))))
           Reference.empty "segredo1" reference_round_trip reference_compact
           eq_refl eq_refl eq_refl eq_refl eq_refl eq_refl (Forall_nil _) eq_refl).
Defined.


(** A new licence number is stored; a taken one is a conflict. *)
Lemma post_motoristas_outcomes_witness :
  ref_post_motoristas Reference.motorista_new Reference.world
  = (mkResponse 201 (JObj [("id", JNum 1); ("nome", JStr "Caio"); ("cnh", JStr "98765432100")]),
     Reference.world)
  /\ ref_post_motoristas Reference.motorista_taken Reference.world
     = (mkResponse 409 (JObj [("error", JStr "CNH já cadastrada no sistema")]), Reference.world).
Proof.
  split.
  - destruct (post_motoristas_outcomes Reference.insert_motorista Reference.motorista_new
                Reference.world) as [_ H].
    destruct (H eq_refl eq_refl eq_refl Reference.world) as (Hrows & _ & _).
    exact (Hrows _ eq_refl).
  - destruct (post_motoristas_outcomes Reference.insert_motorista Reference.motorista_taken
                Reference.world) as [_ H].
    destruct (H eq_refl eq_refl eq_refl Reference.world) as (_ & Hconflict & _).
    exact (Hconflict _ eq_refl eq_refl).
Defined.

Lemma post_caminhoes_outcomes_witness :
  ref_post_caminhoes Reference.caminhao_new Reference.world
  = (mkResponse 201 (JObj [("id", JNum 1); ("placa", JStr "XYZ9A87");
                           ("modelo", JStr "Atego")]),
     Reference.world)
  /\ ref_post_caminhoes Reference.caminhao_taken Reference.world
     = (mkResponse 409 (JObj [("error", JStr "Placa já cadastrada no sistema")]),
        Reference.world).
Proof.
  split.
  - destruct (post_caminhoes_outcomes Reference.insert_caminhao Reference.caminhao_new
                Reference.world) as [_ H].
    destruct (H eq_refl eq_refl eq_refl Reference.world) as (Hrows & _ & _).
    exact (Hrows _ eq_refl).
  - destruct (post_caminhoes_outcomes Reference.insert_caminhao Reference.caminhao_taken
                Reference.world) as [_ H].
    destruct (H eq_refl eq_refl eq_refl Reference.world) as (_ & Hconflict & _).
    exact (Hconflict _ eq_refl eq_refl).
Defined.

Lemma patch_statement_arity_witness :
  placeholders (patch_query (map fst (fields Reference.patch_req))) = [1; 2; 3]%nat
  /\ last (map snd (fields Reference.patch_req) ++ [SStr "7"])%list SNull = SStr "7".
Proof.
  apply (patch_statement_arity (fields Reference.patch_req) "7").
  repeat constructor.
Defined.

Lemma patch_tarefas_outcomes_witness :
  fst (ref_patch_tarefas "7" Reference.patch_req Reference.world)
  = mkResponse 200
      (JObj [("text",
              JStr "UPDATE tarefas SET status = $1, peso = $2 WHERE id = $3 RETURNING *");
             ("values", JArr [JStr "Concluída"; JNum 10; JStr "7"])])
  /\ fst (ref_patch_tarefas "7" (Reference.post "/api/tarefas/7" []) Reference.world)
     = mkResponse 400 (JObj [("error", JStr "Nenhum campo para atualizar")]).
Proof.
  split.
  - destruct (patch_tarefas_outcomes Reference.run_sql "7" Reference.patch_req Reference.world)
      as [_ H].
    rewrite (H ltac:(discriminate) eq_refl). reflexivity.
  - destruct (patch_tarefas_outcomes Reference.run_sql "7"
                (Reference.post "/api/tarefas/7" []) Reference.world) as [H _].
    rewrite (H eq_refl). reflexivity.
Defined.

Lemma register_then_login_witness :
  status (fst (ref_login Reference.register_bia
                 (snd (ref_register Reference.register_bia Reference.world)))) = 200%nat.
Proof.
  apply (register_then_login None Reference.jwt_sign Reference.bcrypt_hash
           Reference.bcrypt_compare Reference.isEmail Reference.normalizeEmail
           Reference.validation_error Reference.register_bia Reference.world "segredo2");
    vm_compute; reflexivity.
Defined.

Lemma login_reads_only_credentials_witness :
  ref_login Reference.login_noisy Reference.world
  = ref_login Reference.login_right Reference.world.
Proof.
  apply (login_reads_only_credentials None Reference.jwt_sign Reference.bcrypt_compare
           Reference.isEmail Reference.normalizeEmail Reference.validation_error);
    reflexivity.
Defined.

Lemma second_registration_conflicts_witness :
  fst (ref_register Reference.register_same_email
         (snd (ref_register Reference.register_bia Reference.world)))
  = mkResponse 409 (JObj [("error", JStr "Este email já está cadastrado")])
  /\ fst (ref_register Reference.register_same_cpf
            (snd (ref_register Reference.register_bia Reference.world)))
     = mkResponse 409 (JObj [("error", JStr "Este CPF já está cadastrado")]).
Proof.
  split.
  - destruct (second_registration_conflicts None Reference.jwt_sign Reference.bcrypt_hash
                Reference.isEmail Reference.normalizeEmail Reference.validation_error
                Reference.register_bia Reference.register_same_email Reference.world
                "segredo2" eq_refl eq_refl eq_refl eq_refl eq_refl eq_refl eq_refl)
      as (_ & Hemail & _).
    rewrite (Hemail eq_refl). reflexivity.
  - destruct (second_registration_conflicts None Reference.jwt_sign Reference.bcrypt_hash
                Reference.isEmail Reference.normalizeEmail Reference.validation_error
                Reference.register_bia Reference.register_same_cpf Reference.world
                "segredo2" eq_refl eq_refl eq_refl eq_refl eq_refl eq_refl eq_refl)
      as (_ & _ & Hcpf).
    rewrite (Hcpf ltac:(vm_compute; reflexivity) eq_refl). reflexivity.
Defined.

(** A store that counts three drivers and twelve trucks. *)
Lemma totals_read_the_count_witness :
  total_motoristas (fun w => (inr ["3"], w)) (Reference.get "/api/estatisticas/total_motoristas" None)
    Reference.world
  = (mkResponse 200 (JObj [("total", JNum 3)]), Reference.world)
  /\ total_caminhoes (fun w => (inr ["12"], w))
       (Reference.get "/api/estatisticas/total_caminhoes" None) Reference.world
     = (mkResponse 200 (JObj [("total", JNum 12)]), Reference.world).
Proof.
  split.
  - destruct (totals_read_the_count (fun w => (inr ["3"], w)) (fun w => (inr ["3"], w)) 3
                (Reference.get "/api/estatisticas/total_motoristas" None)
                Reference.world Reference.world ltac:(reflexivity) eq_refl) as [H _].
    exact (H eq_refl).
  - destruct (totals_read_the_count (fun w => (inr ["12"], w)) (fun w => (inr ["12"], w)) 12
                (Reference.get "/api/estatisticas/total_caminhoes" None)
                Reference.world Reference.world ltac:(reflexivity) eq_refl) as [_ H].
    exact (H eq_refl).
Defined.
